(** * CapsNet-Tensorflow: the capsule layer and routing-by-agreement

    A shallow embedding of [capsLayer.py]: the [CapsLayer] class, the
    [routing] function and the [squash] nonlinearity, together with the
    properties of the design document that are checked against them.

    Numeric model.  The tensors of the source hold [float32] values.  In the
    embedding of the layer and of [routing] a tensor element is a real number
    ([R]) and every TensorFlow kernel is its mathematical function: rounding,
    overflow and the summation order of [reduce_sum] are outside that model.
    Where a property depends on them, [squash] is embedded a second time on
    [float32] values ([squash_f32]), with IEEE 754 binary32 arithmetic.

    Tensors are nested lists, the rank being part of the type; the static
    shape that [get_shape()] returns is recomputed by [has_shape]. *)

From Stdlib Require Import String DecimalString.
From Stdlib Require Import ZArith Floats.SpecFloat.
From Stdlib Require Import Reals Lra Lia Arith Bool List.
Import ListNotations.
Open Scope R_scope.

(* ===================================================================== *)
(** ** Tensors and the TensorFlow kernels the source calls *)
(* ===================================================================== *)

Fixpoint tensor (n : nat) : Type :=
  match n with
  | O => R
  | S m => list (tensor m)
  end.

(** [t.get_shape() == sh] *)
Fixpoint has_shape (n : nat) : tensor n -> list nat -> bool :=
  match n return tensor n -> list nat -> bool with
  | O => fun _ sh => match sh with [] => true | _ :: _ => false end
  | S m => fun t sh =>
      match sh with
      | [] => false
      | d :: sh' => Nat.eqb (length t) d && forallb (fun x => has_shape m x sh') t
      end
  end.
Arguments has_shape {n} _ _.

Definition zipWith {A B C : Type} (f : A -> B -> C) (l1 : list A) (l2 : list B) : list C :=
  map (fun p => f (fst p) (snd p)) (combine l1 l2).

(** [np.zeros(sh)] *)
Fixpoint np_zeros (n : nat) (sh : list nat) : tensor n :=
  match n return tensor n with
  | O => 0
  | S m => match sh with
           | [] => []
           | d :: sh' => repeat (np_zeros m sh') d
           end
  end.

(** Elementwise unary kernels ([tf.square], [tf.sqrt], a Python scalar
    operand). *)
Fixpoint tmap (n : nat) (f : R -> R) : tensor n -> tensor n :=
  match n return tensor n -> tensor n with
  | O => f
  | S m => map (tmap m f)
  end.
Arguments tmap {n} _ _.

(** Elementwise binary kernels with NumPy broadcasting between two tensors of
    one rank: an axis of length 1 is stretched to the other operand's
    length.  Operands whose lengths differ otherwise, which TensorFlow
    refuses, are paired off up to the shorter; [routing] applies the kernels
    to tensors whose shapes it has asserted. *)
Fixpoint broadcast (n : nat) (f : R -> R -> R) : tensor n -> tensor n -> tensor n :=
  match n return tensor n -> tensor n -> tensor n with
  | O => f
  | S m => fun a b =>
      match a, b with
      | [x], _ => map (fun y => broadcast m f x y) b
      | _, [y] => map (fun x => broadcast m f x y) a
      | _, _ => zipWith (broadcast m f) a b
      end
  end.
Arguments broadcast {n} _ _ _.

(** The sum of the entries along a reduced axis.  An axis of length 0 has no
    entry to take the remaining shape from: at rank 0 the sum is 0, above it
    the model returns the empty tensor. *)
Definition tsum (n : nat) (l : list (tensor n)) : tensor n :=
  match l with
  | [] => match n return tensor n with O => 0 | S _ => [] end
  | x :: xs => fold_left (broadcast Rplus) xs x
  end.
Arguments tsum {n} _.

(** [tf.reduce_sum(t, axis)] *)
Fixpoint reduce_sum (n : nat) : nat -> tensor (S n) -> tensor n :=
  match n return nat -> tensor (S n) -> tensor n with
  | O => fun _ t => tsum (n := 0) t
  | S m => fun axis t =>
      match axis with
      | O => tsum (n := S m) t
      | S k => map (reduce_sum m k) t
      end
  end.
Arguments reduce_sum {n} _ _.

(** [tf.expand_dims(t, axis)] *)
Fixpoint expand_dims (n : nat) : nat -> tensor n -> tensor (S n) :=
  match n return nat -> tensor n -> tensor (S n) with
  | O => fun _ x => [x]
  | S m => fun axis t =>
      match axis with
      | O => [t]
      | S k => map (expand_dims m k) t
      end
  end.
Arguments expand_dims {n} _ _.

(** [tf.reduce_sum(t, axis, keep_dims=True)] *)
Definition reduce_sum_keep (n : nat) (axis : nat) (t : tensor (S n)) : tensor (S n) :=
  expand_dims axis (reduce_sum axis t).
Arguments reduce_sum_keep {n} _ _.

(** [tf.tile(t, multiples)] *)
Fixpoint tile (n : nat) : tensor n -> list nat -> tensor n :=
  match n return tensor n -> list nat -> tensor n with
  | O => fun t _ => t
  | S m => fun t multiples =>
      match multiples with
      | [] => t
      | k :: ms => concat (repeat (map (fun x => tile m x ms) t) k)
      end
  end.
Arguments tile {n} _ _.

Fixpoint transpose (m : list (list R)) : list (list R) :=
  match m with
  | [] => []
  | r :: rs =>
      match rs with
      | [] => map (fun x => [x]) r
      | _ :: _ => zipWith cons r (transpose rs)
      end
  end.

Definition dot (u v : list R) : R := tsum (n := 0) (zipWith Rmult u v).

Definition matmul2 (a b : tensor 2) : tensor 2 :=
  map (fun row => map (fun col => dot row col) (transpose b)) a.

(** [tf.matmul(a, b, transpose_a=True)]: the product of the two innermost
    axes (the first operand transposed), the leading axes being paired
    off. *)
Fixpoint matmul_transpose_a (n : nat) : tensor (S (S n)) -> tensor (S (S n)) -> tensor (S (S n)) :=
  match n return tensor (S (S n)) -> tensor (S (S n)) -> tensor (S (S n)) with
  | O => fun a b => matmul2 (transpose a) b
  | S m => zipWith (matmul_transpose_a m)
  end.
Arguments matmul_transpose_a {n} _ _.

Definition softmax_vec (logits : list R) : list R :=
  let e := map exp logits in
  map (fun x => x / tsum (n := 0) e) e.

(** [tf.nn.softmax(t, dim)] for [dim] the last axis *)
Fixpoint softmax (n : nat) : tensor (S n) -> tensor (S n) :=
  match n return tensor (S n) -> tensor (S n) with
  | O => softmax_vec
  | S m => map (softmax m)
  end.
Arguments softmax {n} _.

Fixpoint flatten (n : nat) : tensor n -> list R :=
  match n return tensor n -> list R with
  | O => fun x => [x]
  | S m => fun t => flat_map (flatten m) t
  end.
Arguments flatten {n} _.

Fixpoint chunks {A : Type} (k size : nat) (l : list A) : list (list A) :=
  match k with
  | O => []
  | S k' => firstn size l :: chunks k' size (skipn size l)
  end.

Definition prod_shape (sh : list nat) : nat := fold_right Nat.mul 1%nat sh.

Fixpoint unflatten (n : nat) (sh : list nat) (l : list R) : tensor n :=
  match n return tensor n with
  | O => hd 0 l
  | S m => match sh with
           | [] => []
           | d :: sh' => map (unflatten m sh') (chunks d (prod_shape sh') l)
           end
  end.

(* ===================================================================== *)
(** ** Python outcomes and the trace of calls *)
(* ===================================================================== *)

Inductive exn : Set :=
| AssertionError
| UnboundLocalError
| TypeError
| ValueError.

(** The calls a function body makes, in program order. *)
Inductive call : Set :=
| tf_get_variable (name : string)
| tf_constant
| tf_tile
| tf_matmul
| tf_reshape
| tf_variable_scope (name : string)
| tf_nn_softmax
| tf_expand_dims
| tf_multiply
| tf_reduce_sum
| tf_contrib_layers_conv2d
| call_squash
| call_routing
| op_mul
| op_iadd.

Inductive result (A : Type) : Type :=
| Ok (a : A)
| Raise (e : exn).
Arguments Ok {A} a.
Arguments Raise {A} e.

(** A computation returns a value and the calls it made, or raises. *)
Definition M (A : Type) : Type := result (A * list call).

Definition ret {A : Type} (a : A) : M A := Ok (a, []).

Definition bind {A B : Type} (m : M A) (f : A -> M B) : M B :=
  match m with
  | Ok (a, t1) =>
      match f a with
      | Ok (b, t2) => Ok (b, t1 ++ t2)
      | Raise e => Raise e
      end
  | Raise e => Raise e
  end.

Notation "x <- m ;; k" := (bind m (fun x => k))
  (at level 61, m at next level, right associativity).
Notation "m ;; k" := (bind m (fun _ => k))
  (at level 61, right associativity).

Definition called {A : Type} (c : call) (a : A) : M A := Ok (a, [c]).

(** [assert cond] *)
Definition assert_ (cond : bool) : M unit :=
  if cond then ret tt else Raise AssertionError.

(** [tf.reshape(t, sh)]: the element count must agree. *)
Definition reshape (n m : nat) (t : tensor n) (sh : list nat) : M (tensor m) :=
  if Nat.eqb (length sh) m && Nat.eqb (length (flatten t)) (prod_shape sh)
  then called tf_reshape (unflatten m sh (flatten t))
  else Raise ValueError.
Arguments reshape {n} m _ _.

(** [str(n)] *)
Definition str (n : nat) : string := NilZero.string_of_uint (Nat.to_uint n).

(* ===================================================================== *)
(** ** capsLayer.py *)
(* ===================================================================== *)

(** [from config import cfg]: the fields the file reads. *)
Record config : Type := {
  batch_size : nat;
  iter_routing : nat;
  stddev : R
}.

(** The architecture constants, written as literals in the source and named
    here after its docstrings. *)
Definition num_caps_l : nat := 6 * 6 * 32.
Definition num_caps_l_plus_1 : nat := 10.
Definition len_u_i : nat := 8.
Definition len_v_j : nat := 16.

(** *** squash *)

(** [def squash(vector)]: [tf.square], [tf.reduce_sum] along the last axis
    with [keep_dims=True], the two divisions, [tf.sqrt] and the final
    product, as the source composes them. *)
Definition squash (n : nat) (vector : tensor (S n)) : tensor (S n) :=
  let vec_squared_norm := reduce_sum_keep n (tmap (fun x => x * x) vector) in
  let scalar_factor :=
    broadcast Rdiv
      (broadcast Rdiv vec_squared_norm (tmap (fun x => 1 + x) vec_squared_norm))
      (tmap sqrt (tmap (fun x => x + 1e-7) vec_squared_norm)) in
  let vec_squashed := broadcast Rmult scalar_factor vector in
  vec_squashed.
Arguments squash {n} _.

(** *** routing *)

(** The local variables of [routing] that are live in the loop. *)
Record locals : Type := {
  u_hat : tensor 4;
  b_IJ : tensor 3;
  c_IJ : option (tensor 4);
  s_J : option (tensor 3);
  v_J : option (tensor 3);
  v_J_tiled : option (tensor 4);
  u_produce_v : option (tensor 3)
}.

(** The body of [for r_iter in range(cfg.iter_routing)]. *)
Definition iteration (cfg : config) (r_iter : nat) (st : locals) : M locals :=
  called (tf_variable_scope (String.append "iter_" (str r_iter))) tt ;;
  c <- called tf_nn_softmax (softmax (b_IJ st)) ;;
  c <- called tf_expand_dims (expand_dims 3 c) ;;
  assert_ (has_shape c [batch_size cfg; num_caps_l; num_caps_l_plus_1; 1%nat]) ;;
  s <- called tf_multiply (broadcast Rmult c (u_hat st)) ;;
  assert_ (has_shape s [batch_size cfg; num_caps_l; num_caps_l_plus_1; len_v_j]) ;;
  s <- called tf_reduce_sum (reduce_sum 1 s) ;;
  assert_ (has_shape s [batch_size cfg; num_caps_l_plus_1; len_v_j]) ;;
  v <- called call_squash (squash s) ;;
  assert_ (has_shape v [batch_size cfg; num_caps_l_plus_1; len_v_j]) ;;
  vt <- called tf_expand_dims (expand_dims 1 v) ;;
  p <- called op_mul (broadcast Rmult (u_hat st) vt) ;;
  upv <- called tf_reduce_sum (reduce_sum 3 p) ;;
  assert_ (has_shape upv [batch_size cfg; num_caps_l; num_caps_l_plus_1]) ;;
  b <- called op_iadd (broadcast Rplus (b_IJ st) upv) ;;
  ret {| u_hat := u_hat st; b_IJ := b; c_IJ := Some c; s_J := Some s;
         v_J := Some v; v_J_tiled := Some vt; u_produce_v := Some upv |}.

(** [for r in range(start, start + n): st = body(r, st)] *)
Fixpoint for_range (start n : nat) (body : nat -> locals -> M locals) (st : locals) : M locals :=
  match n with
  | O => ret st
  | S k => st' <- body start st ;; for_range (S start) k body st'
  end.

(** [tf.get_variable('Weight', shape=...)]: the variable of that name in the
    variable store, which has the requested shape. *)
Definition get_variable (Weight : tensor 5) (sh : list nat) : M (tensor 5) :=
  if has_shape Weight sh then called (tf_get_variable "Weight") Weight
  else Raise ValueError.

(** The statements of [routing] before the loop. *)
Definition routing_prologue (cfg : config) (Weight : tensor 5) (input : tensor 5) : M locals :=
  W <- get_variable Weight [1%nat; num_caps_l; num_caps_l_plus_1; len_u_i; len_v_j] ;;
  b <- called tf_constant (np_zeros 3 [batch_size cfg; num_caps_l; num_caps_l_plus_1]) ;;
  input <- called tf_tile (tile input [1; 1; num_caps_l_plus_1; 1; 1]%nat) ;;
  W <- called tf_tile (tile W [batch_size cfg; 1; 1; 1; 1]%nat) ;;
  assert_ (has_shape input [batch_size cfg; num_caps_l; num_caps_l_plus_1; len_u_i; 1%nat]) ;;
  mm <- called tf_matmul (matmul_transpose_a W input) ;;
  u <- reshape 4 mm [batch_size cfg; num_caps_l; num_caps_l_plus_1; len_v_j] ;;
  assert_ (has_shape u [batch_size cfg; num_caps_l; num_caps_l_plus_1; len_v_j]) ;;
  ret {| u_hat := u; b_IJ := b; c_IJ := None; s_J := None; v_J := None;
         v_J_tiled := None; u_produce_v := None |}.

(** The locals after the prologue and [r] iterations of the loop. *)
Definition routing_after (cfg : config) (Weight : tensor 5) (input : tensor 5) (r : nat) : M locals :=
  st <- routing_prologue cfg Weight input ;;
  for_range 0 r (iteration cfg) st.

(** [def routing(input)]; the weight is the variable [Weight] of the variable
    store and the iteration count is [cfg.iter_routing].  [return(v_J, b_IJ)]
    reads [v_J], which only the loop body binds. *)
Definition routing (cfg : config) (Weight : tensor 5) (input : tensor 5) : M (tensor 3 * tensor 3) :=
  st <- routing_after cfg Weight input (iter_routing cfg) ;;
  match v_J st with
  | Some v => ret (v, b_IJ st)
  | None => Raise UnboundLocalError
  end.

(** *** CapsLayer *)

(** The values a Python call of this file passes or returns. *)
Inductive pyval : Type :=
| PyNone
| PyInt (i : nat)
| PyTensor (n : nat) (t : tensor n).

(** An instance of [CapsLayer]: the attributes [__init__] sets, and those
    [__call__] adds ([None] while unset). *)
Record CapsLayer : Type := {
  num_outputs : nat;
  vec_len : nat;
  with_routing : bool;
  layer_type : string;
  self_kernel_size : option nat;
  self_stride : option nat;
  self_input : option (tensor 5);
  self_b_IJ : option (tensor 3)
}.

(** [CapsLayer(num_outputs, vec_len, with_routing=True, layer_type='FC')] *)
Definition CapsLayer__init__ (num_outputs vec_len : nat)
    (with_routing : option bool) (layer_type : option string) : CapsLayer :=
  {| num_outputs := num_outputs;
     vec_len := vec_len;
     with_routing := match with_routing with Some b => b | None => true end;
     layer_type := match layer_type with Some s => s | None => "FC"%string end;
     self_kernel_size := None;
     self_stride := None;
     self_input := None;
     self_b_IJ := None |}.

(** [tf.contrib.layers.conv2d(input, num_outputs, kernel_size, stride,
    padding="VALID")]: a library layer with weights of its own, taken as a
    parameter of the model. *)
Definition conv2d_layer : Type :=
  tensor 4 -> nat -> option nat -> option nat -> result (tensor 4).

Definition contrib_layers_conv2d (conv2d : conv2d_layer) (input : tensor 4)
    (outputs : nat) (kernel_size stride : option nat) : M (tensor 4) :=
  match conv2d input outputs kernel_size stride with
  | Ok t => called tf_contrib_layers_conv2d t
  | Raise e => Raise e
  end.

(** The block under [if self.layer_type == 'CONV':].  [Some v] is
    [return(v)]; [None] is control leaving the block at its end. *)
Definition CapsLayer_if_CONV (cfg : config) (conv2d : conv2d_layer) (self : CapsLayer)
    (input : tensor 4) (kernel_size stride : option nat) : CapsLayer * M (option pyval) :=
  if String.eqb (layer_type self) "CONV" then
    let self :=
      {| num_outputs := num_outputs self; vec_len := vec_len self;
         with_routing := with_routing self; layer_type := layer_type self;
         self_kernel_size := kernel_size; self_stride := stride;
         self_input := self_input self; self_b_IJ := self_b_IJ self |} in
    if negb (with_routing self) then
      (self,
       assert_ (has_shape input [batch_size cfg; 20; 20; 256]%nat) ;;
       capsules <- contrib_layers_conv2d conv2d input
                     (num_outputs self * vec_len self)
                     (self_kernel_size self) (self_stride self) ;;
       assert_ (has_shape capsules [batch_size cfg; 6; 6; 8 * 32]%nat) ;;
       capsules <- called call_squash (squash capsules) ;;
       assert_ (has_shape capsules [batch_size cfg; 6; 6; 8 * 32]%nat) ;;
       ret (Some (PyTensor 4 capsules)))
    else (self, ret None)
  else (self, ret None).

(** The block under [if self.with_routing:] of the 'FC' branch: the binding
    of the local [capsules] and of [self.input], [self.b_IJ]. *)
Definition CapsLayer_FC_routing (cfg : config) (Weight : tensor 5) (self : CapsLayer)
    (input : tensor 4) : CapsLayer * M (tensor 3) :=
  match reshape 5 input [batch_size cfg; (6 * 6 * 32)%nat; 1%nat; 8%nat; 1%nat] with
  | Raise e => (self, Raise e)
  | Ok (inp, t1) =>
      let self :=
        {| num_outputs := num_outputs self; vec_len := vec_len self;
           with_routing := with_routing self; layer_type := layer_type self;
           self_kernel_size := self_kernel_size self; self_stride := self_stride self;
           self_input := Some inp; self_b_IJ := self_b_IJ self |} in
      match (called (tf_variable_scope "routing") tt ;;
             called call_routing tt ;;
             r <- routing cfg Weight inp ;;
             assert_ (has_shape (fst r) [batch_size cfg; 10; 16]%nat) ;;
             ret r) with
      | Raise e => (self, Raise e)
      | Ok ((capsules, b), t2) =>
          ({| num_outputs := num_outputs self; vec_len := vec_len self;
              with_routing := with_routing self; layer_type := layer_type self;
              self_kernel_size := self_kernel_size self; self_stride := self_stride self;
              self_input := self_input self; self_b_IJ := Some b |},
           Ok (capsules, t1 ++ t2))
      end
  end.

(** [CapsLayer.__call__(self, input, kernel_size=None, stride=None)]: the
    instance after the call, and the value returned or the exception
    raised. *)
Definition CapsLayer__call__ (cfg : config) (Weight : tensor 5) (conv2d : conv2d_layer)
    (self : CapsLayer) (input : tensor 4) (kernel_size stride : option nat)
    : CapsLayer * M pyval :=
  let (self, r) := CapsLayer_if_CONV cfg conv2d self input kernel_size stride in
  match r with
  | Raise e => (self, Raise e)
  | Ok (Some v, t) => (self, Ok (v, t))
  | Ok (None, t) =>
      if String.eqb (layer_type self) "FC" then
        (* [capsules] is a local of the function, bound in one branch only *)
        let (self, capsules) :=
          if with_routing self then
            let (self, r) := CapsLayer_FC_routing cfg Weight self input in
            (self, c <- r ;; ret (Some c))
          else (self, ret None) in
        (self,
         Ok (tt, t) ;;
         c <- capsules ;;
         (* [return(capsules)] *)
         match c with
         | Some v => ret (PyTensor 3 v)
         | None => Raise UnboundLocalError
         end)
      else (self, Ok (PyNone, t))
  end.

(** *** Calling [routing] from Python *)

(** A call [routing(a1, ..., an)]: [def routing(input)] binds exactly one positional
    argument; any other number of arguments is a [TypeError] raised before
    the body runs.  An argument that is not a rank-5 tensor is refused by the
    first kernel applied to it. *)
Definition routing_py (cfg : config) (Weight : tensor 5) (args : list pyval)
    : M (tensor 3 * tensor 3) :=
  match args with
  | [a] =>
      match a with
      | PyTensor n t =>
          match n return tensor n -> M (tensor 3 * tensor 3) with
          | 5%nat => fun t => routing cfg Weight t
          | _ => fun _ => Raise ValueError
          end t
      | _ => Raise ValueError
      end
  | _ => Raise TypeError
  end.

(** *** The variable store *)

(** The variables the default graph holds in the current variable scope, by
    name, newest first: what [tf.get_variable] reads and extends. *)
Definition variable_store : Type := list (string * pyval).

Fixpoint lookup_variable (name : string) (vs : variable_store) : option pyval :=
  match vs with
  | [] => None
  | (n, x) :: vs' => if String.eqb name n then Some x else lookup_variable name vs'
  end.

(** An invocation of [routing] in a variable store.  Its first statement is
    [tf.get_variable('Weight', shape=..., initializer=
    tf.random_normal_initializer(stddev=cfg.stddev))], in a scope that does
    not reuse variables: if the scope holds a variable [Weight] already the
    call raises [ValueError] and nothing else runs; otherwise the variable
    is created and added to the store.  Its value is what the initializer
    draws, a sample of a normal distribution that nothing in the program
    fixes: [drawn] stands for that sample, a tensor of the declared shape.
    The rest of the invocation is [routing cfg drawn input] above. *)
Definition routing_invocation (cfg : config) (vs : variable_store) (drawn : tensor 5)
    (input : tensor 5) : variable_store * M (tensor 3 * tensor 3) :=
  match lookup_variable "Weight" vs with
  | Some _ => (vs, Raise ValueError)
  | None => (("Weight"%string, PyTensor 5 drawn) :: vs, routing cfg drawn input)
  end.

(** *** squash on float32 values *)

(** The elements of the source's tensors are [float32] values: IEEE 754
    binary32, that is the Standard Library's specification of binary
    floating point at precision 24 with the infinities at exponent 128, its
    operations rounding to nearest, ties to even. *)
Definition float32 : Type := spec_float.
Definition f32_add : float32 -> float32 -> float32 := SFadd 24 128.
Definition f32_mul : float32 -> float32 -> float32 := SFmul 24 128.
Definition f32_div : float32 -> float32 -> float32 := SFdiv 24 128.
Definition f32_sqrt : float32 -> float32 := SFsqrt 24 128.

(** The [float32] nearest to [m * 2^e]. *)
Definition f32_of_Z (m e : Z) : float32 := binary_normalize 24 128 m e false.

Definition f32_zero : float32 := S754_zero false.

(** The literals [1] and [1e-7] of the source as [float32] values; the
    latter is [0x33D6BF95]. *)
Definition f32_one : float32 := f32_of_Z 1 0.
Definition f32_eps : float32 := S754_finite false 14073749 (-47).

(** [tf.reduce_sum] over the components of one vector.  The kernel chooses
    the order of the additions; here they are made from left to right. *)
Definition reduce_sum_f32 (v : list float32) : float32 :=
  fold_left f32_add v f32_zero.

(** [def squash(vector)] on one vector of [float32] values, the last axis of
    the argument: the statements of the source with every operation rounded
    as the program rounds it. *)
Definition squash_f32 (vector : list float32) : list float32 :=
  let vec_squared_norm := reduce_sum_f32 (map (fun x => f32_mul x x) vector) in
  let scalar_factor :=
    f32_div (f32_div vec_squared_norm (f32_add f32_one vec_squared_norm))
            (f32_sqrt (f32_add vec_squared_norm f32_eps)) in
  let vec_squashed := map (f32_mul scalar_factor) vector in
  vec_squashed.

(* ===================================================================== *)
(** ** The design document's definitions *)
(* ===================================================================== *)

(** Entry access; an index out of range reads 0. *)
Definition at2 (t : tensor 2) (i j : nat) : R := nth j (nth i t []) 0.
Definition at3 (t : tensor 3) (i j k : nat) : R := nth k (nth j (nth i t []) []) 0.
Definition at4 (t : tensor 4) (i j k l : nat) : R :=
  nth l (nth k (nth j (nth i t []) []) []) 0.
Definition at5 (t : tensor 5) (i j k l m : nat) : R :=
  nth m (nth l (nth k (nth j (nth i t []) []) []) []) 0.

(** The list [f 0; ...; f (n-1)], and the tensors tabulated from their
    entries. *)
Definition tab {A : Type} (n : nat) (f : nat -> A) : list A := map f (seq 0 n).

Definition tab2 (n1 n2 : nat) (f : nat -> nat -> R) : tensor 2 :=
  tab n1 (fun i => tab n2 (f i)).
Definition tab3 (n1 n2 n3 : nat) (f : nat -> nat -> nat -> R) : tensor 3 :=
  tab n1 (fun i => tab2 n2 n3 (f i)).
Definition tab4 (n1 n2 n3 n4 : nat) (f : nat -> nat -> nat -> nat -> R) : tensor 4 :=
  tab n1 (fun i => tab3 n2 n3 n4 (f i)).
Definition tab5 (n1 n2 n3 n4 n5 : nat)
    (f : nat -> nat -> nat -> nat -> nat -> R) : tensor 5 :=
  tab n1 (fun i => tab4 n2 n3 n4 n5 (f i)).

(** Sum of [f 0 .. f (n-1)]. *)
Fixpoint Rsum (n : nat) (f : nat -> R) : R :=
  match n with
  | O => 0
  | S k => Rsum k f + f k
  end.

Definition sum_list (l : list R) : R := fold_right Rplus 0 l.

(** Squared Euclidean norm and norm of a pose vector. *)
Definition sq_norm (v : list R) : R := sum_list (map (fun x => x * x) v).
Definition norm (v : list R) : R := sqrt (sq_norm v).

(** Section 4.1: [(s / (1+s)) * (v / sqrt(s + eps))] with [s = ||v||^2]. *)
Definition spec_squash_vec (v : list R) : list R :=
  let s := sq_norm v in
  map (fun x => (s / (1 + s)) * (x / sqrt (s + 1e-7))) v.

(** The squash without the stabilising constant:
    [(s / (1+s)) * (v / ||v||)]. *)
Definition exact_squash_vec (v : list R) : list R :=
  let s := sq_norm v in
  map (fun x => (s / (1 + s)) * (x / sqrt s)) v.

(** A function of the pose vectors, applied along the last axis. *)
Fixpoint map_last (n : nat) (f : list R -> list R) : tensor (S n) -> tensor (S n) :=
  match n return tensor (S n) -> tensor (S n) with
  | O => f
  | S m => map (map_last m f)
  end.
Arguments map_last {n} _ _.

(** Section 4.4, unrouted variant: the channels of every position are
    grouped into capsules of [vec_len] entries and each capsule is squashed
    on its own. *)
Definition spec_squash_per_capsule (vec_len : nat) (channels : list R) : list R :=
  concat (map spec_squash_vec (chunks (length channels / vec_len) vec_len channels)).

Definition spec_primary_caps (vec_len : nat) (conv_out : tensor 4) : tensor 4 :=
  map_last (n := 3) (spec_squash_per_capsule vec_len) conv_out.

(** Section 4.2: the vote [u_hat[b,i,j,:] = transpose(W[i,j]) U[b,i,:]], the
    weight being shared by the batch. *)
Definition spec_votes (W input : tensor 5) (b i j d : nat) : R :=
  Rsum len_u_i (fun k => at5 W 0 i j k d * at5 input b i 0 k 0).

(** Section 4.3: the routing iterator on one batch element, with the votes
    [votes i j d] and the logits [b i j]. *)
Section RoutingSpec.

Variables N_in N_out D_out : nat.
Variable votes : nat -> nat -> nat -> R.

(** a. [c <- softmax(b)] over the higher capsules *)
Definition spec_c (b : nat -> nat -> R) (i j : nat) : R :=
  exp (b i j) / Rsum N_out (fun j' => exp (b i j')).

(** b. [s[j] <- sum_i c[i,j] * u_hat[i,j]] *)
Definition spec_s (b : nat -> nat -> R) (j d : nat) : R :=
  Rsum N_in (fun i => spec_c b i j * votes i j d).

(** c. [v[j] <- Squash(s[j])] *)
Definition spec_v (b : nat -> nat -> R) (j d : nat) : R :=
  let s := Rsum D_out (fun d' => spec_s b j d' * spec_s b j d') in
  (s / (1 + s)) * (spec_s b j d / sqrt (s + 1e-7)).

(** d. [agreement[i,j] <- u_hat[i,j] . v[j]] *)
Definition spec_agreement (b : nat -> nat -> R) (i j : nat) : R :=
  Rsum D_out (fun d => votes i j d * spec_v b j d).

(** e. [b <- b + agreement] *)
Definition spec_update (b : nat -> nat -> R) (i j : nat) : R :=
  b i j + spec_agreement b i j.

(** The logits after [r] iterations, from the zero logits. *)
Fixpoint spec_logits (r : nat) : nat -> nat -> R :=
  match r with
  | O => fun _ _ => 0
  | S k => spec_update (spec_logits k)
  end.

End RoutingSpec.

(** The calls of one loop iteration and of a whole [routing] run. *)
Definition iteration_calls (r_iter : nat) : list call :=
  [tf_variable_scope (String.append "iter_" (str r_iter));
   tf_nn_softmax; tf_expand_dims; tf_multiply; tf_reduce_sum; call_squash;
   tf_expand_dims; op_mul; tf_reduce_sum; op_iadd].

Definition prologue_calls : list call :=
  [tf_get_variable "Weight"; tf_constant; tf_tile; tf_tile; tf_matmul; tf_reshape].

Definition loop_calls (start n : nat) : list call :=
  flat_map iteration_calls (seq start n).

Definition is_matmul (c : call) : bool :=
  match c with tf_matmul => true | _ => false end.

Definition is_scope (c : call) : bool :=
  match c with tf_variable_scope _ => true | _ => false end.

Definition count (p : call -> bool) (t : list call) : nat := length (filter p t).

(* ===================================================================== *)
(** ** Definitions used by the statements below *)
(* ===================================================================== *)

(** The locals of the loop when the votes are [u] and the logits [bl]. *)
Definition tab_locals (cfg : config) (u : nat -> nat -> nat -> nat -> R)
    (bl : nat -> nat -> nat -> R) (bound : option (nat -> nat -> nat -> R)) : locals :=
  let B := batch_size cfg in
  {| u_hat := tab4 B num_caps_l num_caps_l_plus_1 len_v_j u;
     b_IJ := tab3 B num_caps_l num_caps_l_plus_1 bl;
     c_IJ := option_map (fun p => tab4 B num_caps_l num_caps_l_plus_1 1
                                    (fun b i j _ => spec_c num_caps_l_plus_1 (p b) i j)) bound;
     s_J := option_map (fun p => tab3 B num_caps_l_plus_1 len_v_j
                                    (fun b => spec_s num_caps_l num_caps_l_plus_1 (u b) (p b))) bound;
     v_J := option_map (fun p => tab3 B num_caps_l_plus_1 len_v_j
                                    (fun b => spec_v num_caps_l num_caps_l_plus_1 len_v_j (u b) (p b))) bound;
     v_J_tiled := option_map (fun p => tab4 B 1 num_caps_l_plus_1 len_v_j
                                    (fun b _ => spec_v num_caps_l num_caps_l_plus_1 len_v_j (u b) (p b))) bound;
     u_produce_v := option_map (fun p => tab3 B num_caps_l num_caps_l_plus_1
                                    (fun b => spec_agreement num_caps_l num_caps_l_plus_1 len_v_j (u b) (p b))) bound
  |}.

(** The shapes [routing] is run on: the variable [Weight] as
    [tf.get_variable] declares it, and the input as [CapsLayer.__call__]
    reshapes it. *)
Definition weight_shape : list nat :=
  [1%nat; num_caps_l; num_caps_l_plus_1; len_u_i; len_v_j].
Definition input_shape (cfg : config) : list nat :=
  [batch_size cfg; num_caps_l; 1%nat; len_u_i; 1%nat].

(** The logits of every batch element after [r] iterations. *)
Definition batch_logits (u : nat -> nat -> nat -> nat -> R) (r : nat)
    : nat -> nat -> nat -> R :=
  fun b => spec_logits num_caps_l num_caps_l_plus_1 len_v_j (u b) r.

(** The logits the last executed iteration started from, if any. *)
Definition last_logits (u : nat -> nat -> nat -> nat -> R) (r : nat)
    : option (nat -> nat -> nat -> R) :=
  match r with
  | O => None
  | S k => Some (batch_logits u k)
  end.

(** A configuration and tensors of the declared shapes, used as concrete
    inputs below. *)
Definition cfg0 : config := {| batch_size := 1; iter_routing := 3; stddev := 0.01 |}.
Definition Weight0 : tensor 5 := np_zeros 5 weight_shape.
Definition input0 : tensor 5 := np_zeros 5 (input_shape cfg0).

(** A second configuration with the batch size and the iteration count of
    [cfg0] and another standard deviation for the initialiser. *)
Definition cfg0' : config := {| batch_size := 1; iter_routing := 3; stddev := 1 |}.

(** A vector with a nonzero component. *)
Definition nonzero (v : list R) : Prop := exists x, In x v /\ x <> 0.

(** The factor [squash] scales a vector of squared norm [s] by. *)
Definition scalar_factor_of (s : R) : R := s / (1 + s) / sqrt (s + 1e-7).

(** A convolution output with every channel equal to 1, the layer that
    returns it, the feature map it is applied to and the primary-capsule
    layer [CapsLayer(32, 8, with_routing=False, layer_type='CONV')]. *)
Definition conv_ones : tensor 4 := tab4 1 6 6 (8 * 32) (fun _ _ _ _ => 1).
Definition conv2d_ones : conv2d_layer := fun _ _ _ _ => Ok conv_ones.
Definition feature_map0 : tensor 4 := np_zeros 4 [1; 20; 20; 256]%nat.
Definition primary_caps0 : CapsLayer :=
  CapsLayer__init__ 32 8 (Some false) (Some "CONV"%string).

(** A configuration whose loop runs no iteration. *)
Definition cfg_no_iteration : config :=
  {| batch_size := 1; iter_routing := 0; stddev := 0.01 |}.

(** A configuration with a batch of two and the all-zero input of its
    shape. *)
Definition cfg_two : config := {| batch_size := 2; iter_routing := 3; stddev := 0.01 |}.
Definition input_two : tensor 5 := np_zeros 5 (input_shape cfg_two).

(** A configuration with one routing iteration. *)
Definition cfg_one_iteration : config :=
  {| batch_size := 1; iter_routing := 1; stddev := 0.01 |}.

(** The instance after [self.kernel_size = kernel_size] and
    [self.stride = stride]. *)
Definition with_kernel (self : CapsLayer) (kernel_size stride : option nat) : CapsLayer :=
  {| num_outputs := num_outputs self; vec_len := vec_len self;
     with_routing := with_routing self; layer_type := layer_type self;
     self_kernel_size := kernel_size; self_stride := stride;
     self_input := self_input self; self_b_IJ := self_b_IJ self |}.

(** A convolution that raises, and one that returns an empty tensor. *)
Definition conv2d_raises : conv2d_layer := fun _ _ _ _ => Raise ValueError.
Definition conv2d_empty : conv2d_layer := fun _ _ _ _ => Ok [].

(** The instance after [self.input = input] and [self.b_IJ = b_IJ]. *)
Definition with_routed (self : CapsLayer) (input : tensor 5) (b : tensor 3) : CapsLayer :=
  {| num_outputs := num_outputs self; vec_len := vec_len self;
     with_routing := with_routing self; layer_type := layer_type self;
     self_kernel_size := self_kernel_size self; self_stride := self_stride self;
     self_input := Some input; self_b_IJ := Some b |}.

(** The digit-capsule layer [CapsLayer(10, 16)], with the defaults
    [with_routing=True] and [layer_type='FC']. *)
Definition digit_caps0 : CapsLayer := CapsLayer__init__ 10 16 None None.

(** An input with the entries of a primary-capsule output for a batch of
    one. *)
Definition caps_zero : tensor 4 := np_zeros 4 [1; 6; 6; 256]%nat.

(** A variable store that holds the biases of a convolution layer and no
    variable [Weight]. *)
Definition store_with_biases : variable_store :=
  [("Conv/biases"%string, PyTensor 1 (np_zeros 1 [256%nat]))].

(** The sign bit of a [float32] value (clear on NaN). *)
Definition f32_negative (x : float32) : bool :=
  match x with
  | S754_zero s | S754_infinity s | S754_finite s _ _ => s
  | S754_nan => false
  end.

(** The real number a finite [float32] value denotes (0 on the infinities
    and on NaN, which are not numbers). *)
Definition f32_real (x : float32) : R :=
  match x with
  | S754_finite s m e =>
      let a := match e with
               | Z0 => IZR (Zpos m)
               | Zpos p => IZR (Zpos m * 2 ^ Zpos p)
               | Zneg p => IZR (Zpos m) / IZR (2 ^ Zpos p)
               end in
      if s then - a else a
  | _ => 0
  end.

(** The factor [squash_f32] multiplies the components of a vector by. *)
Definition scalar_factor_f32 (vector : list float32) : float32 :=
  let vec_squared_norm := reduce_sum_f32 (map (fun x => f32_mul x x) vector) in
  f32_div (f32_div vec_squared_norm (f32_add f32_one vec_squared_norm))
          (f32_sqrt (f32_add vec_squared_norm f32_eps)).

(** The [float32] nearest to [1e-17], which is [0x233877AA]. *)
Definition f32_1e_17 : float32 := S754_finite false 12089258 (-80).

(* ===================================================================== *)
(** ** Tabulated lists *)
(* ===================================================================== *)

Section Tab.

Context {A : Type}.

Lemma tab_length (n : nat) (f : nat -> A) : length (tab n f) = n.
Proof. unfold tab. now rewrite length_map, length_seq. Qed.

Lemma tab_ext (n : nat) (f g : nat -> A) :
  (forall i, (i < n)%nat -> f i = g i) -> tab n f = tab n g.
Proof.
  intros H. unfold tab. apply map_ext_in.
  intros i Hi. apply in_seq in Hi. apply H. lia.
Qed.

Lemma tab_S (n : nat) (f : nat -> A) :
  tab (S n) f = f O :: tab n (fun i => f (S i)).
Proof.
  unfold tab. cbn [seq map]. f_equal.
  rewrite <- seq_shift, map_map. reflexivity.
Qed.

Lemma tab_snoc (n : nat) (f : nat -> A) : tab (S n) f = tab n f ++ [f n].
Proof. unfold tab. rewrite seq_S, map_app. reflexivity. Qed.

Lemma nth_tab (n i : nat) (f : nat -> A) (d : A) :
  (i < n)%nat -> nth i (tab n f) d = f i.
Proof.
  intros Hi. unfold tab.
  rewrite (nth_indep _ d (f O)) by (now rewrite length_map, length_seq).
  rewrite map_nth, seq_nth by assumption. reflexivity.
Qed.

Lemma repeat_tab (n : nat) (x : A) : repeat x n = tab n (fun _ => x).
Proof.
  induction n as [|n IH]; [reflexivity|].
  rewrite tab_S. cbn [repeat]. now rewrite IH.
Qed.

Lemma list_as_tab (n : nat) (l : list A) (d : A) :
  length l = n -> l = tab n (fun i => nth i l d).
Proof.
  intros <-. induction l as [|x l IH]; [reflexivity|].
  cbn [length]. rewrite tab_S. cbn [nth]. now rewrite <- IH.
Qed.

Lemma forallb_tab (p : A -> bool) (n : nat) (f : nat -> A) :
  (forall i, (i < n)%nat -> p (f i) = true) -> forallb p (tab n f) = true.
Proof.
  intros H. apply forallb_forall. intros x Hx.
  unfold tab in Hx. apply in_map_iff in Hx. destruct Hx as [i [<- Hi]].
  apply in_seq in Hi. apply H. lia.
Qed.

End Tab.

Lemma map_tab {A B : Type} (g : A -> B) (n : nat) (f : nat -> A) :
  map g (tab n f) = tab n (fun i => g (f i)).
Proof. unfold tab. now rewrite map_map. Qed.

Lemma zipWith_cons {A B C : Type} (g : A -> B -> C) x xs y ys :
  zipWith g (x :: xs) (y :: ys) = g x y :: zipWith g xs ys.
Proof. reflexivity. Qed.

Lemma zipWith_tab {A B C : Type} (g : A -> B -> C) (n : nat) (a : nat -> A) (b : nat -> B) :
  zipWith g (tab n a) (tab n b) = tab n (fun i => g (a i) (b i)).
Proof.
  revert a b. induction n as [|n IH]; intros a b; [reflexivity|].
  rewrite !tab_S, zipWith_cons. f_equal. apply IH.
Qed.

Lemma zipWith_length {A B C : Type} (g : A -> B -> C) (l1 : list A) (l2 : list B) :
  length (zipWith g l1 l2) = Nat.min (length l1) (length l2).
Proof. unfold zipWith. now rewrite length_map, length_combine. Qed.

Lemma fold_left_tab_snoc {A B : Type} (g : A -> B -> A) (n : nat) (f : nat -> B) (a : A) :
  fold_left g (tab (S n) f) a = g (fold_left g (tab n f) a) (f n).
Proof. rewrite tab_snoc, fold_left_app. reflexivity. Qed.

(** *** Shapes of tabulated tensors, and tensors of a shape as tables *)

Lemma has_shape_cons (n : nat) (t : tensor (S n)) (d : nat) (sh : list nat) :
  has_shape t (d :: sh) = true <->
  length t = d /\ forall x, In x t -> has_shape x sh = true.
Proof.
  cbn [has_shape]. rewrite andb_true_iff, Nat.eqb_eq, forallb_forall. reflexivity.
Qed.

Lemma has_shape_tab (n : nat) (d : nat) (sh : list nat) (f : nat -> tensor n) :
  (forall i, (i < d)%nat -> has_shape (f i) sh = true) ->
  has_shape (n := S n) (tab d f) (d :: sh) = true.
Proof.
  intros H. cbn [has_shape]. rewrite tab_length, Nat.eqb_refl. cbn [andb].
  now apply forallb_tab.
Qed.

Lemma has_shape_tab1 (n1 : nat) (f : nat -> R) :
  has_shape (n := 1) (tab n1 f) [n1] = true.
Proof. apply (has_shape_tab 0). reflexivity. Qed.

Lemma has_shape_tab2 (n1 n2 : nat) f : has_shape (tab2 n1 n2 f) [n1; n2] = true.
Proof. apply (has_shape_tab 1). intros. apply has_shape_tab1. Qed.

Lemma has_shape_tab3 (n1 n2 n3 : nat) f :
  has_shape (tab3 n1 n2 n3 f) [n1; n2; n3] = true.
Proof. apply (has_shape_tab 2). intros. apply has_shape_tab2. Qed.

Lemma has_shape_tab4 (n1 n2 n3 n4 : nat) f :
  has_shape (tab4 n1 n2 n3 n4 f) [n1; n2; n3; n4] = true.
Proof. apply (has_shape_tab 3). intros. apply has_shape_tab3. Qed.

Lemma has_shape_tab5 (n1 n2 n3 n4 n5 : nat) f :
  has_shape (tab5 n1 n2 n3 n4 n5 f) [n1; n2; n3; n4; n5] = true.
Proof. apply (has_shape_tab 4). intros. apply has_shape_tab4. Qed.

Lemma shape_as_tab (n : nat) (t : tensor (S n)) (d : nat) (sh : list nat) (dflt : tensor n) :
  has_shape t (d :: sh) = true ->
  t = tab d (fun i => nth i t dflt) /\
  forall i, (i < d)%nat -> has_shape (nth i t dflt) sh = true.
Proof.
  intros H. apply has_shape_cons in H. destruct H as [Hl Hall]. split.
  - now apply list_as_tab.
  - intros i Hi. apply Hall, nth_In. lia.
Qed.

Lemma shape1_as_tab (t : tensor 1) (n1 : nat) :
  has_shape t [n1] = true -> t = tab n1 (fun i => nth i t 0).
Proof. intros H. now apply (shape_as_tab 0 _ _ _ 0) in H. Qed.

Lemma shape2_as_tab (t : tensor 2) (n1 n2 : nat) :
  has_shape t [n1; n2] = true -> t = tab2 n1 n2 (at2 t).
Proof.
  intros H. apply (shape_as_tab 1 _ _ _ []) in H. destruct H as [E Hs].
  rewrite E at 1. apply tab_ext. intros i Hi.
  now apply shape1_as_tab, Hs.
Qed.

Lemma shape3_as_tab (t : tensor 3) (n1 n2 n3 : nat) :
  has_shape t [n1; n2; n3] = true -> t = tab3 n1 n2 n3 (at3 t).
Proof.
  intros H. apply (shape_as_tab 2 _ _ _ []) in H. destruct H as [E Hs].
  rewrite E at 1. apply tab_ext. intros i Hi.
  now apply shape2_as_tab, Hs.
Qed.

Lemma shape4_as_tab (t : tensor 4) (n1 n2 n3 n4 : nat) :
  has_shape t [n1; n2; n3; n4] = true -> t = tab4 n1 n2 n3 n4 (at4 t).
Proof.
  intros H. apply (shape_as_tab 3 _ _ _ []) in H. destruct H as [E Hs].
  rewrite E at 1. apply tab_ext. intros i Hi.
  now apply shape3_as_tab, Hs.
Qed.

Lemma shape5_as_tab (t : tensor 5) (n1 n2 n3 n4 n5 : nat) :
  has_shape t [n1; n2; n3; n4; n5] = true -> t = tab5 n1 n2 n3 n4 n5 (at5 t).
Proof.
  intros H. apply (shape_as_tab 4 _ _ _ []) in H. destruct H as [E Hs].
  rewrite E at 1. apply tab_ext. intros i Hi.
  now apply shape4_as_tab, Hs.
Qed.

(* ===================================================================== *)
(** ** The kernels on tabulated tensors *)
(* ===================================================================== *)

Lemma Rsum_ext (n : nat) (f g : nat -> R) :
  (forall i, (i < n)%nat -> f i = g i) -> Rsum n f = Rsum n g.
Proof.
  induction n as [|n IH]; intros H; [reflexivity|].
  cbn [Rsum]. rewrite IH, H by (intros; try apply H; lia). reflexivity.
Qed.

Lemma Rsum_zero (n : nat) (f : nat -> R) :
  (forall i, (i < n)%nat -> f i = 0) -> Rsum n f = 0.
Proof.
  induction n as [|n IH]; intros H; [reflexivity|].
  cbn [Rsum]. rewrite IH, H by (intros; try apply H; lia). lra.
Qed.

Lemma Rsum_const (n : nat) (c : R) : Rsum n (fun _ => c) = INR n * c.
Proof.
  induction n as [|n IH]; [cbn; lra|].
  cbn [Rsum]. rewrite IH, S_INR. lra.
Qed.

Lemma Rsum_pos (n : nat) (f : nat -> R) :
  (0 < n)%nat -> (forall i, (i < n)%nat -> 0 < f i) -> 0 < Rsum n f.
Proof.
  intros Hn H. destruct n as [|n]; [lia|]. clear Hn.
  induction n as [|n IH].
  - cbn. assert (0 < f O) by (apply H; lia). lra.
  - cbn [Rsum] in *. assert (0 < f (S n)) by (apply H; lia).
    assert (0 < Rsum n f + f n) by (apply IH; intros; apply H; lia). lra.
Qed.

Lemma Rsum_scale (n : nat) (c : R) (f : nat -> R) :
  Rsum n (fun i => f i / c) = Rsum n f / c.
Proof.
  induction n as [|n IH]; [cbn; lra|].
  cbn [Rsum]. rewrite IH. lra.
Qed.

Lemma tsum0_fold (l : list R) : tsum (n := 0) l = fold_left Rplus l 0.
Proof.
  destruct l as [|x l]; [reflexivity|].
  cbn [tsum fold_left broadcast]. now rewrite Rplus_0_l.
Qed.

Lemma tsum0_tab (n : nat) (f : nat -> R) : tsum (n := 0) (tab n f) = Rsum n f.
Proof.
  rewrite tsum0_fold. induction n as [|n IH]; [reflexivity|].
  rewrite fold_left_tab_snoc, IH. reflexivity.
Qed.

Lemma fold_left_Rplus_acc (l : list R) (a : R) :
  fold_left Rplus l a = a + fold_left Rplus l 0.
Proof.
  revert a. induction l as [|x l IH]; intros a; cbn [fold_left].
  - lra.
  - rewrite (IH (a + x)), (IH (0 + x)). lra.
Qed.

Lemma tsum0_sum_list (l : list R) : tsum (n := 0) l = sum_list l.
Proof.
  rewrite tsum0_fold. induction l as [|x l IH]; [reflexivity|].
  cbn [fold_left sum_list fold_right]. rewrite fold_left_Rplus_acc, IH.
  unfold sum_list. lra.
Qed.

Lemma sum_list_tab (n : nat) (f : nat -> R) : sum_list (tab n f) = Rsum n f.
Proof. now rewrite <- tsum0_sum_list, tsum0_tab. Qed.

(** Broadcasting two operands of one length pairs their entries off. *)
Lemma broadcast_same_length (m : nat) (f : R -> R -> R) (a b : tensor (S m)) :
  length a = length b ->
  broadcast f a b = zipWith (broadcast (n := m) f) a b.
Proof.
  destruct a as [|x [|y a]], b as [|x' [|y' b]]; cbn [length]; intros H;
    try discriminate; reflexivity.
Qed.

Lemma broadcast_tab (m : nat) (f : R -> R -> R) (n : nat) (a b : nat -> tensor m) :
  broadcast (n := S m) f (tab n a) (tab n b) = tab n (fun i => broadcast f (a i) (b i)).
Proof.
  rewrite broadcast_same_length by now rewrite !tab_length.
  apply zipWith_tab.
Qed.

Lemma broadcast_one_l (m : nat) (f : R -> R -> R) (x : tensor m) (b : tensor (S m)) :
  broadcast (n := S m) f [x] b = map (fun y => broadcast f x y) b.
Proof. reflexivity. Qed.

Lemma broadcast_one_r (m : nat) (f : R -> R -> R) (a : tensor (S m)) (y : tensor m) :
  broadcast (n := S m) f a [y] = map (fun x => broadcast f x y) a.
Proof. destruct a as [|x [|x' a]]; reflexivity. Qed.

Lemma broadcast_tab2 (f : R -> R -> R) (n1 n2 : nat) a b :
  broadcast (n := 2) f (tab2 n1 n2 a) (tab2 n1 n2 b) =
  tab2 n1 n2 (fun i j => f (a i j) (b i j)).
Proof.
  unfold tab2. rewrite broadcast_tab. apply tab_ext. intros i _.
  apply (broadcast_tab 0).
Qed.

Lemma broadcast_tab3 (f : R -> R -> R) (n1 n2 n3 : nat) a b :
  broadcast (n := 3) f (tab3 n1 n2 n3 a) (tab3 n1 n2 n3 b) =
  tab3 n1 n2 n3 (fun i j k => f (a i j k) (b i j k)).
Proof.
  unfold tab3. rewrite broadcast_tab. apply tab_ext. intros i _.
  apply broadcast_tab2.
Qed.

(** The sum along an axis of length at least 1, entry by entry. *)
Lemma tsum_tab_tab2 (n n1 n2 : nat) (g : nat -> nat -> nat -> R) :
  (0 < n)%nat ->
  tsum (n := 2) (tab n (fun i => tab2 n1 n2 (g i))) =
  tab2 n1 n2 (fun j d => Rsum n (fun i => g i j d)).
Proof.
  intros Hn. destruct n as [|n]; [lia|]. clear Hn.
  rewrite tab_S. cbn [tsum].
  induction n as [|n IH].
  - cbn [tab seq map fold_left]. unfold tab2. apply tab_ext. intros j _.
    apply tab_ext. intros d _. cbn. lra.
  - rewrite fold_left_tab_snoc, IH, broadcast_tab2. unfold tab2.
    apply tab_ext. intros j _. apply tab_ext. intros d _. reflexivity.
Qed.

Lemma softmax_vec_tab (n : nat) (f : nat -> R) :
  softmax_vec (tab n f) = tab n (fun j => exp (f j) / Rsum n (fun j' => exp (f j'))).
Proof.
  unfold softmax_vec. cbv zeta. rewrite !map_tab, tsum0_tab. reflexivity.
Qed.

Lemma softmax_tab3 (n1 n2 n3 : nat) (f : nat -> nat -> nat -> R) :
  softmax (n := 2) (tab3 n1 n2 n3 f) =
  tab3 n1 n2 n3 (fun b i j => exp (f b i j) / Rsum n3 (fun j' => exp (f b i j'))).
Proof.
  unfold tab3, tab2. cbn [softmax]. rewrite map_tab. apply tab_ext. intros b _.
  rewrite map_tab. apply tab_ext. intros i _. apply softmax_vec_tab.
Qed.

Lemma expand_dims_last_tab3 (n1 n2 n3 : nat) (f : nat -> nat -> nat -> R) :
  expand_dims (n := 3) 3 (tab3 n1 n2 n3 f) = tab4 n1 n2 n3 1 (fun b i j _ => f b i j).
Proof.
  unfold tab4, tab3, tab2. cbn [expand_dims]. rewrite map_tab. apply tab_ext. intros b _.
  rewrite map_tab. apply tab_ext. intros i _. rewrite map_tab. reflexivity.
Qed.

Lemma expand_dims_1_tab3 (n1 n2 n3 : nat) (f : nat -> nat -> nat -> R) :
  expand_dims (n := 3) 1 (tab3 n1 n2 n3 f) = tab4 n1 1 n2 n3 (fun b _ j d => f b j d).
Proof.
  unfold tab4, tab3 at 1. cbn [expand_dims]. rewrite map_tab. reflexivity.
Qed.

(* ===================================================================== *)
(** ** squash, vector by vector *)
(* ===================================================================== *)

Lemma zipWith_map_same {A B C D : Type} (f : B -> C -> D) (g : A -> B) (h : A -> C)
    (l : list A) :
  zipWith f (map g l) (map h l) = map (fun x => f (g x) (h x)) l.
Proof.
  induction l as [|x l IH]; [reflexivity|].
  cbn [map]. rewrite zipWith_cons. now rewrite IH.
Qed.

Lemma broadcast_map_same (m : nat) (f : R -> R -> R) {A : Type}
    (g h : A -> tensor m) (l : list A) :
  broadcast (n := S m) f (map g l) (map h l) = map (fun x => broadcast f (g x) (h x)) l.
Proof.
  rewrite broadcast_same_length by now rewrite !length_map.
  apply zipWith_map_same.
Qed.

Lemma sq_norm_nonneg (v : list R) : 0 <= sq_norm v.
Proof.
  unfold sq_norm, sum_list. induction v as [|x v IH]; cbn; [lra|].
  pose proof (Rle_0_sqr x) as Hx. unfold Rsqr in Hx. lra.
Qed.

Lemma eps_pos : 0 < 1e-7.
Proof. lra. Qed.

(** On one vector the kernels of [squash] scale it by
    [s / (1 + s) / sqrt(s + 1e-7)]. *)
Lemma squash_rank1 (v : list R) :
  squash (n := 0) v =
  map (fun x => sq_norm v / (1 + sq_norm v) / sqrt (sq_norm v + 1e-7) * x) v.
Proof.
  unfold squash, reduce_sum_keep. cbv zeta. cbn [reduce_sum expand_dims tmap map].
  rewrite tsum0_sum_list. fold (sq_norm v).
  rewrite broadcast_one_l. reflexivity.
Qed.

Lemma squash_rank1_spec (v : list R) : squash (n := 0) v = spec_squash_vec v.
Proof.
  rewrite squash_rank1. unfold spec_squash_vec. cbv zeta.
  apply map_ext. intros x.
  pose proof (sq_norm_nonneg v) as Hs.
  assert (0 < sqrt (sq_norm v + 1e-7)) by (apply sqrt_lt_R0; lra).
  field. split; lra.
Qed.

Lemma squash_rank_S (m : nat) (t : tensor (S (S m))) :
  squash (n := S m) t = map (squash (n := m)) t.
Proof.
  unfold squash, reduce_sum_keep. cbv zeta.
  cbn [reduce_sum expand_dims tmap]. rewrite !map_map.
  rewrite !broadcast_map_same.
  rewrite <- (map_id t) at 2. rewrite broadcast_map_same.
  reflexivity.
Qed.

(** [squash] maps every vector along the last axis by the formula of
    section 4.1, whatever the rank. *)
Lemma squash_map_last (n : nat) (t : tensor (S n)) :
  squash t = map_last spec_squash_vec t.
Proof.
  induction n as [|n IH].
  - apply squash_rank1_spec.
  - rewrite squash_rank_S. cbn [map_last]. apply map_ext. intros x. apply IH.
Qed.

Lemma sq_norm_tab (n : nat) (f : nat -> R) :
  sq_norm (tab n f) = Rsum n (fun d => f d * f d).
Proof. unfold sq_norm. now rewrite map_tab, sum_list_tab. Qed.

Lemma spec_squash_vec_tab (n : nat) (f : nat -> R) :
  spec_squash_vec (tab n f) =
  tab n (fun d => let s := Rsum n (fun d' => f d' * f d') in
                  (s / (1 + s)) * (f d / sqrt (s + 1e-7))).
Proof.
  unfold spec_squash_vec. cbv zeta. rewrite sq_norm_tab, map_tab. reflexivity.
Qed.

Lemma squash_tab3 (n1 n2 n3 : nat) (f : nat -> nat -> nat -> R) :
  squash (n := 2) (tab3 n1 n2 n3 f) =
  tab3 n1 n2 n3 (fun b j d =>
    let s := Rsum n3 (fun d' => f b j d' * f b j d') in
    (s / (1 + s)) * (f b j d / sqrt (s + 1e-7))).
Proof.
  rewrite squash_map_last. unfold tab3, tab2. cbn [map_last].
  rewrite map_tab. apply tab_ext. intros b _.
  rewrite map_tab. apply tab_ext. intros j _.
  apply spec_squash_vec_tab.
Qed.

(* ===================================================================== *)
(** ** The kernels on small tensors *)
(* ===================================================================== *)

Example num_caps_l_value : num_caps_l = 1152%nat.
Proof. reflexivity. Qed.

Example str_12 : str 12 = "12"%string.
Proof. reflexivity. Qed.

Example has_shape_2_3 : has_shape (n := 2) [[1; 2; 3]; [4; 5; 6]] [2; 3]%nat = true.
Proof. reflexivity. Qed.

Example has_shape_ragged : has_shape (n := 2) [[1; 2; 3]; [4; 5]] [2; 3]%nat = false.
Proof. reflexivity. Qed.

Example tile_2_3 :
  tile (n := 2) [[1; 2]] [2; 3]%nat = [[1; 2; 1; 2; 1; 2]; [1; 2; 1; 2; 1; 2]].
Proof. reflexivity. Qed.

Example expand_dims_last : expand_dims (n := 2) 2 [[1; 2]; [3; 4]] = [[[1]; [2]]; [[3]; [4]]].
Proof. reflexivity. Qed.

Example expand_dims_axis1 : expand_dims (n := 2) 1 [[1; 2]; [3; 4]] = [[[1; 2]]; [[3; 4]]].
Proof. reflexivity. Qed.

Example reduce_sum_axis0 : reduce_sum (n := 1) 0 [[1; 2]; [3; 4]] = [1 + 3; 2 + 4].
Proof. reflexivity. Qed.

Example reduce_sum_axis1 : reduce_sum (n := 1) 1 [[1; 2]; [3; 4]] = [1 + 2; 3 + 4].
Proof. reflexivity. Qed.

Example broadcast_column :
  broadcast (n := 2) Rmult [[2]; [3]] [[1; 10]; [1; 10]] = [[2 * 1; 2 * 10]; [3 * 1; 3 * 10]].
Proof. reflexivity. Qed.

Example broadcast_row :
  broadcast (n := 2) Rmult [[1; 10]; [2; 20]] [[5; 7]] = [[1 * 5; 10 * 7]; [2 * 5; 20 * 7]].
Proof. reflexivity. Qed.

Example transpose_2_3 : transpose [[1; 2; 3]; [4; 5; 6]] = [[1; 4]; [2; 5]; [3; 6]].
Proof. reflexivity. Qed.

(** [[2, 3].T x [2, 1] => [3, 1]] *)
Example matmul_transpose_a_2_3 :
  matmul_transpose_a (n := 0) [[1; 2; 3]; [4; 5; 6]] [[7]; [8]] =
  [[1 * 7 + 4 * 8]; [2 * 7 + 5 * 8]; [3 * 7 + 6 * 8]].
Proof. reflexivity. Qed.

Example reshape_2_3_to_3_2 :
  reshape 2 (n := 2) [[1; 2; 3]; [4; 5; 6]] [3; 2]%nat =
  Ok ([[1; 2]; [3; 4]; [5; 6]], [tf_reshape]).
Proof. reflexivity. Qed.

Example reshape_wrong_count :
  reshape 2 (n := 2) [[1; 2; 3]; [4; 5; 6]] [4; 2]%nat = Raise ValueError.
Proof. reflexivity. Qed.

Example softmax_two_zeros : softmax (n := 0) [0; 0] = [1 / 2; 1 / 2].
Proof.
  cbn [softmax]. unfold softmax_vec. cbn [map tsum fold_left broadcast].
  rewrite exp_0. replace (1 / (1 + 1)) with (1 / 2) by lra. reflexivity.
Qed.

Example squash_3_4 :
  squash (n := 0) [3; 4] = [25 / 26 * (3 / sqrt (25 + 1e-7)); 25 / 26 * (4 / sqrt (25 + 1e-7))].
Proof.
  rewrite squash_rank1_spec. unfold spec_squash_vec. cbv zeta.
  replace (sq_norm [3; 4]) with 25 by (unfold sq_norm, sum_list; cbn; lra).
  cbn [map]. replace (1 + 25) with 26 by lra. reflexivity.
Qed.

Example routing_no_argument : routing_py cfg0 Weight0 [] = Raise TypeError.
Proof. reflexivity. Qed.

(* ===================================================================== *)
(** ** One routing iteration on tabulated tensors *)
(* ===================================================================== *)

Lemma multiply_coupling_tab (n1 n2 n3 n4 : nat) c u :
  broadcast (n := 4) Rmult (tab4 n1 n2 n3 1 c) (tab4 n1 n2 n3 n4 u) =
  tab4 n1 n2 n3 n4 (fun b i j d => c b i j O * u b i j d).
Proof.
  unfold tab4, tab3, tab2. rewrite broadcast_tab. apply tab_ext. intros b _.
  rewrite broadcast_tab. apply tab_ext. intros i _.
  rewrite broadcast_tab. apply tab_ext. intros j _.
  change (tab 1 (c b i j)) with [c b i j O].
  rewrite broadcast_one_l, map_tab. reflexivity.
Qed.

Lemma reduce_sum_1_tab4 (n1 n2 n3 n4 : nat) g :
  (0 < n2)%nat ->
  reduce_sum (n := 3) 1 (tab4 n1 n2 n3 n4 g) =
  tab3 n1 n3 n4 (fun b j d => Rsum n2 (fun i => g b i j d)).
Proof.
  intros Hn. unfold tab4, tab3 at 2. cbn [reduce_sum]. rewrite map_tab.
  apply tab_ext. intros b _. unfold tab3. now apply tsum_tab_tab2.
Qed.

Lemma multiply_votes_tab (n1 n2 n3 n4 : nat) u v :
  broadcast (n := 4) Rmult (tab4 n1 n2 n3 n4 u) (tab4 n1 1 n3 n4 v) =
  tab4 n1 n2 n3 n4 (fun b i j d => u b i j d * v b O j d).
Proof.
  unfold tab4. rewrite broadcast_tab. apply tab_ext. intros b _.
  unfold tab3 at 2. change (tab 1 (fun i => tab2 n3 n4 (v b i))) with [tab2 n3 n4 (v b O)].
  unfold tab3. rewrite broadcast_one_r, map_tab. apply tab_ext. intros i _.
  apply broadcast_tab2.
Qed.

Lemma reduce_sum_3_tab4 (n1 n2 n3 n4 : nat) g :
  reduce_sum (n := 3) 3 (tab4 n1 n2 n3 n4 g) =
  tab3 n1 n2 n3 (fun b i j => Rsum n4 (g b i j)).
Proof.
  unfold tab4, tab3, tab2. cbn [reduce_sum]. rewrite map_tab. apply tab_ext. intros b _.
  rewrite map_tab. apply tab_ext. intros i _. rewrite map_tab. apply tab_ext. intros j _.
  apply tsum0_tab.
Qed.

Lemma num_caps_l_pos : (0 < num_caps_l)%nat.
Proof. unfold num_caps_l. lia. Qed.

Lemma iteration_tab (cfg : config) (r_iter : nat) u bl bound :
  iteration cfg r_iter (tab_locals cfg u bl bound) =
  Ok (tab_locals cfg u
        (fun b => spec_update num_caps_l num_caps_l_plus_1 len_v_j (u b) (bl b))
        (Some bl),
      iteration_calls r_iter).
Proof.
  unfold iteration, tab_locals. cbv zeta.
  cbn [bind called ret u_hat b_IJ].
  rewrite softmax_tab3, expand_dims_last_tab3, has_shape_tab4.
  cbn [bind called ret assert_ u_hat b_IJ].
  rewrite multiply_coupling_tab, has_shape_tab4.
  cbn [bind called ret assert_ u_hat b_IJ].
  rewrite reduce_sum_1_tab4 by apply num_caps_l_pos. rewrite has_shape_tab3.
  cbn [bind called ret assert_ u_hat b_IJ].
  rewrite squash_tab3, has_shape_tab3.
  cbn [bind called ret assert_ u_hat b_IJ].
  rewrite expand_dims_1_tab3, multiply_votes_tab, reduce_sum_3_tab4, has_shape_tab3.
  cbn [bind called ret assert_ u_hat b_IJ].
  rewrite broadcast_tab3.
  cbn [app option_map]. reflexivity.
Qed.

(* ===================================================================== *)
(** ** The statements before the loop on tabulated tensors *)
(* ===================================================================== *)

Lemma tile_ones (n : nat) (t : tensor n) (ms : list nat) :
  Forall (eq 1%nat) ms -> tile t ms = t.
Proof.
  revert t ms. induction n as [|n IH]; intros t ms Hms; [reflexivity|].
  destruct ms as [|k ms]; [reflexivity|].
  inversion Hms as [|? ? Hk Hms']; subst.
  cbn [tile repeat concat]. rewrite app_nil_r.
  rewrite <- (map_id t) at 2. apply map_ext. intros x. now apply IH.
Qed.

Lemma concat_repeat_singleton {A : Type} (x : A) (k : nat) :
  concat (repeat [x] k) = repeat x k.
Proof. induction k as [|k IH]; [reflexivity|]. cbn. now rewrite IH. Qed.

Lemma tile_cons (n : nat) (t : tensor (S n)) (k : nat) (ms : list nat) :
  tile (n := S n) t (k :: ms) = concat (repeat (map (fun x => tile x ms) t) k).
Proof. reflexivity. Qed.

Lemma tile_one_cons (n : nat) (t : tensor (S n)) (ms : list nat) :
  tile (n := S n) t (1%nat :: ms) = map (fun x => tile x ms) t.
Proof. rewrite tile_cons. cbn [repeat concat]. apply app_nil_r. Qed.

Lemma tile_input_tab (n1 n2 n4 k : nat) x :
  tile (n := 5) (tab5 n1 n2 1 n4 1 x) [1; 1; k; 1; 1]%nat =
  tab5 n1 n2 k n4 1 (fun b i _ l m => x b i O l m).
Proof.
  unfold tab5, tab4. rewrite tile_one_cons, map_tab.
  apply tab_ext. intros b _.
  rewrite tile_one_cons, map_tab. apply tab_ext. intros i _.
  unfold tab3.
  change (tab 1 (fun j => tab2 n4 1 (x b i j))) with [tab2 n4 1 (x b i O)].
  rewrite tile_cons. cbn [map].
  rewrite (tile_ones 2) by (repeat constructor).
  rewrite concat_repeat_singleton, repeat_tab. reflexivity.
Qed.

Lemma tile_weight_tab (n2 n3 n4 n5 k : nat) w :
  tile (n := 5) (tab5 1 n2 n3 n4 n5 w) [k; 1; 1; 1; 1]%nat =
  tab5 k n2 n3 n4 n5 (fun _ i j l d => w O i j l d).
Proof.
  unfold tab5.
  change (tab 1 (fun b => tab4 n2 n3 n4 n5 (w b))) with [tab4 n2 n3 n4 n5 (w O)].
  rewrite tile_cons. cbn [map].
  rewrite (tile_ones 4) by (repeat constructor).
  rewrite concat_repeat_singleton, repeat_tab. reflexivity.
Qed.

Lemma transpose_cons (r : list R) (rs : list (list R)) :
  (0 < length rs)%nat -> transpose (r :: rs) = zipWith cons r (transpose rs).
Proof. destruct rs; cbn [length]; [lia|reflexivity]. Qed.

Lemma transpose_tab2 (n m : nat) (w : nat -> nat -> R) :
  (0 < n)%nat ->
  transpose (tab2 n m w) = tab2 m n (fun d k => w k d).
Proof.
  intros Hn. destruct n as [|n]; [lia|]. clear Hn. revert w.
  induction n as [|n IH]; intros w.
  - unfold tab2. cbn [tab seq map transpose]. rewrite map_tab. reflexivity.
  - unfold tab2 in *. rewrite tab_S.
    rewrite transpose_cons by (rewrite tab_length; lia).
    rewrite IH, zipWith_tab. apply tab_ext. intros d _.
    now rewrite (tab_S (S n)).
Qed.

Lemma dot_tab (n : nat) (a b : nat -> R) :
  dot (tab n a) (tab n b) = Rsum n (fun k => a k * b k).
Proof. unfold dot. now rewrite zipWith_tab, tsum0_tab. Qed.

Lemma matmul_transpose_a_tab2 (n m p : nat) (w x : nat -> nat -> R) :
  (0 < n)%nat ->
  matmul_transpose_a (n := 0) (tab2 n m w) (tab2 n p x) =
  tab2 m p (fun d c => Rsum n (fun k => w k d * x k c)).
Proof.
  intros Hn. cbn [matmul_transpose_a]. unfold matmul2.
  rewrite !transpose_tab2 by assumption. unfold tab2.
  rewrite map_tab. apply tab_ext. intros d _.
  rewrite map_tab. apply tab_ext. intros c _.
  apply dot_tab.
Qed.

Lemma matmul_transpose_a_tab5 (n1 n2 n3 n4 n5 p : nat) w x :
  (0 < n4)%nat ->
  matmul_transpose_a (n := 3) (tab5 n1 n2 n3 n4 n5 w) (tab5 n1 n2 n3 n4 p x) =
  tab5 n1 n2 n3 n5 p (fun b i j d c => Rsum n4 (fun k => w b i j k d * x b i j k c)).
Proof.
  intros Hn. unfold tab5, tab4, tab3. cbn [matmul_transpose_a].
  rewrite zipWith_tab. apply tab_ext. intros b _.
  rewrite zipWith_tab. apply tab_ext. intros i _.
  rewrite zipWith_tab. apply tab_ext. intros j _.
  now apply matmul_transpose_a_tab2.
Qed.

(** *** reshape *)

Lemma chunks_length {A : Type} (k size : nat) (l : list A) :
  length (chunks k size l) = k.
Proof.
  revert l. induction k as [|k IH]; intros l; [reflexivity|].
  cbn [chunks length]. now rewrite IH.
Qed.

Lemma chunks_In_length {A : Type} (k size : nat) (l c : list A) :
  length l = (k * size)%nat -> In c (chunks k size l) -> length c = size.
Proof.
  revert l. induction k as [|k IH]; intros l Hl Hc; [destruct Hc|].
  cbn [chunks] in Hc. destruct Hc as [<- | Hc].
  - rewrite length_firstn. lia.
  - apply (IH (skipn size l)); [|assumption]. rewrite length_skipn. lia.
Qed.

Lemma chunks_flat_map {A B : Type} (f : A -> list B) (size : nat) (t : list A) :
  (forall x, In x t -> length (f x) = size) ->
  chunks (length t) size (flat_map f t) = map f t.
Proof.
  induction t as [|x t IH]; intros H; [reflexivity|].
  cbn [length chunks flat_map map].
  assert (Hx : length (f x) = size) by (apply H; now left).
  rewrite firstn_app, skipn_app, Hx, Nat.sub_diag.
  rewrite <- Hx at 1 3. rewrite firstn_all, skipn_all.
  cbn [firstn skipn app]. rewrite app_nil_r. f_equal.
  apply IH. intros y Hy. apply H. now right.
Qed.

Lemma flat_map_length_const {A B : Type} (f : A -> list B) (size : nat) (t : list A) :
  (forall x, In x t -> length (f x) = size) ->
  length (flat_map f t) = (length t * size)%nat.
Proof.
  induction t as [|x t IH]; intros H; [reflexivity|].
  cbn [flat_map length]. rewrite length_app.
  rewrite IH by (intros y Hy; apply H; now right).
  rewrite H by now left. lia.
Qed.

Lemma flatten_length (n : nat) (t : tensor n) (sh : list nat) :
  has_shape t sh = true -> length (flatten t) = prod_shape sh.
Proof.
  revert t sh. induction n as [|n IH]; intros t sh H.
  - destruct sh; [reflexivity|discriminate].
  - destruct sh as [|d sh]; [discriminate|].
    apply has_shape_cons in H. destruct H as [Hl Hall].
    cbn [flatten].
    rewrite (flat_map_length_const _ (prod_shape sh))
      by (intros x Hx; now apply IH, Hall).
    subst d. reflexivity.
Qed.

(** Reshaping a tensor to the shape it has gives the tensor back. *)
Lemma unflatten_flatten (n : nat) (t : tensor n) (sh : list nat) :
  has_shape t sh = true -> unflatten n sh (flatten t) = t.
Proof.
  revert t sh. induction n as [|n IH]; intros t sh H.
  - reflexivity.
  - destruct sh as [|d sh]; [discriminate|].
    apply has_shape_cons in H. destruct H as [Hl Hall].
    cbn [flatten unflatten]. rewrite <- Hl.
    rewrite chunks_flat_map by (intros x Hx; now apply flatten_length, Hall).
    rewrite map_map. rewrite <- (map_id t) at 2.
    apply map_ext_in. intros x Hx. now apply IH, Hall.
Qed.

(** A flat list of the right length unflattens to a tensor of the shape. *)
Lemma unflatten_has_shape (sh : list nat) (l : list R) :
  length l = prod_shape sh ->
  has_shape (unflatten (length sh) sh l) sh = true.
Proof.
  revert l. induction sh as [|d sh IH]; intros l Hl; [reflexivity|].
  cbn [length unflatten]. apply has_shape_cons. split.
  - now rewrite length_map, chunks_length.
  - intros x Hx. apply in_map_iff in Hx. destruct Hx as [c [<- Hc]].
    apply IH. apply (chunks_In_length d _ l); assumption.
Qed.

Lemma flat_map_tab {A B : Type} (g : A -> list B) (n : nat) (f : nat -> A) :
  flat_map g (tab n f) = flat_map (fun i => g (f i)) (seq 0 n).
Proof. unfold tab. now rewrite !flat_map_concat_map, map_map. Qed.

Lemma flat_map_tab_ext {A A' B : Type} (g : A -> list B) (g' : A' -> list B) (n : nat)
    (f : nat -> A) (f' : nat -> A') :
  (forall i, (i < n)%nat -> g (f i) = g' (f' i)) ->
  flat_map g (tab n f) = flat_map g' (tab n f').
Proof.
  intros H. rewrite !flat_map_tab, !flat_map_concat_map. f_equal.
  apply map_ext_in. intros i Hi. apply in_seq in Hi. apply H. lia.
Qed.

(** Dropping a last axis of length 1 keeps the entries in their order. *)
Lemma flatten_squeeze_tab5 (n1 n2 n3 n4 : nat) f :
  flatten (n := 5) (tab5 n1 n2 n3 n4 1 f) =
  flatten (n := 4) (tab4 n1 n2 n3 n4 (fun b i j d => f b i j d O)).
Proof.
  unfold tab5, tab4, tab3, tab2. cbn [flatten].
  apply flat_map_tab_ext. intros b _.
  apply flat_map_tab_ext. intros i _.
  apply flat_map_tab_ext. intros j _.
  apply flat_map_tab_ext. intros d _. reflexivity.
Qed.

Lemma reshape_squeeze_tab5 (n1 n2 n3 n4 : nat) f :
  reshape 4 (tab5 n1 n2 n3 n4 1 f) [n1; n2; n3; n4] =
  Ok (tab4 n1 n2 n3 n4 (fun b i j d => f b i j d O), [tf_reshape]).
Proof.
  unfold reshape. rewrite flatten_squeeze_tab5.
  rewrite (flatten_length 4 _ [n1; n2; n3; n4]) by apply has_shape_tab4.
  cbn [length]. rewrite !Nat.eqb_refl. cbn [andb].
  rewrite unflatten_flatten by apply has_shape_tab4. reflexivity.
Qed.

Lemma np_zeros_tab3 (n1 n2 n3 : nat) :
  np_zeros 3 [n1; n2; n3] = tab3 n1 n2 n3 (fun _ _ _ => 0).
Proof. cbn [np_zeros]. unfold tab3, tab2. now rewrite !repeat_tab. Qed.

Lemma len_u_i_pos : (0 < len_u_i)%nat.
Proof. unfold len_u_i. lia. Qed.

Lemma routing_prologue_tab (cfg : config) (Weight input : tensor 5) :
  has_shape Weight weight_shape = true ->
  has_shape input (input_shape cfg) = true ->
  routing_prologue cfg Weight input =
  Ok (tab_locals cfg (spec_votes Weight input) (fun _ _ _ => 0) None, prologue_calls).
Proof.
  unfold weight_shape, input_shape. intros HW HI.
  unfold routing_prologue, get_variable. rewrite HW.
  pose proof (shape5_as_tab _ _ _ _ _ _ HW) as EW.
  pose proof (shape5_as_tab _ _ _ _ _ _ HI) as EI.
  unfold spec_votes.
  set (w := at5 Weight) in *. set (x := at5 input) in *. clearbody w x.
  subst Weight input.
  cbn [bind called ret].
  rewrite np_zeros_tab3, tile_input_tab, tile_weight_tab, has_shape_tab5.
  cbn [bind called ret assert_].
  rewrite matmul_transpose_a_tab5 by apply len_u_i_pos.
  rewrite reshape_squeeze_tab5.
  cbn [bind called ret assert_].
  rewrite has_shape_tab4.
  cbn [bind called ret assert_ app]. reflexivity.
Qed.

Lemma loop_calls_S (start n : nat) :
  loop_calls start (S n) = iteration_calls start ++ loop_calls (S start) n.
Proof. reflexivity. Qed.

Lemma for_range_tab (cfg : config) u (n r start : nat) bound :
  for_range start n (iteration cfg) (tab_locals cfg u (batch_logits u r) bound) =
  Ok (tab_locals cfg u (batch_logits u (n + r))
        (match n with O => bound | S _ => last_logits u (n + r) end),
      loop_calls start n).
Proof.
  revert r start bound. induction n as [|n IH]; intros r start bound.
  - reflexivity.
  - cbn [for_range]. rewrite iteration_tab.
    change (fun b => spec_update num_caps_l num_caps_l_plus_1 len_v_j (u b) (batch_logits u r b))
      with (batch_logits u (S r)).
    cbn [bind]. rewrite (IH (S r)). rewrite loop_calls_S.
    replace (n + S r)%nat with (S n + r)%nat by lia.
    destruct n; reflexivity.
Qed.

Lemma routing_after_tab (cfg : config) (Weight input : tensor 5) (r : nat) :
  has_shape Weight weight_shape = true ->
  has_shape input (input_shape cfg) = true ->
  routing_after cfg Weight input r =
  Ok (tab_locals cfg (spec_votes Weight input)
        (batch_logits (spec_votes Weight input) r)
        (last_logits (spec_votes Weight input) r),
      prologue_calls ++ loop_calls 0 r).
Proof.
  intros HW HI. unfold routing_after.
  rewrite routing_prologue_tab by assumption. cbn [bind].
  change (fun _ _ _ : nat => 0) with (batch_logits (spec_votes Weight input) 0).
  rewrite for_range_tab. rewrite Nat.add_0_r. destruct r; reflexivity.
Qed.

(** The run of [routing] on tensors of the declared shapes, for at least
    one iteration. *)
Lemma routing_tab (cfg : config) (Weight input : tensor 5) (k : nat) :
  has_shape Weight weight_shape = true ->
  has_shape input (input_shape cfg) = true ->
  iter_routing cfg = S k ->
  let u := spec_votes Weight input in
  routing cfg Weight input =
  Ok ((tab3 (batch_size cfg) num_caps_l_plus_1 len_v_j
         (fun b => spec_v num_caps_l num_caps_l_plus_1 len_v_j (u b) (batch_logits u k b)),
       tab3 (batch_size cfg) num_caps_l num_caps_l_plus_1 (batch_logits u (S k))),
      prologue_calls ++ loop_calls 0 (S k)).
Proof.
  intros HW HI HR u. unfold routing. rewrite HR.
  rewrite routing_after_tab by assumption.
  cbn [bind tab_locals v_J b_IJ last_logits option_map ret]. cbv zeta.
  now rewrite app_nil_r.
Qed.

(** Without an iteration the [return] statement reads an unbound local. *)
Lemma routing_zero_iterations (cfg : config) (Weight input : tensor 5) :
  has_shape Weight weight_shape = true ->
  has_shape input (input_shape cfg) = true ->
  iter_routing cfg = O ->
  routing cfg Weight input = Raise UnboundLocalError.
Proof.
  intros HW HI HR. unfold routing. rewrite HR.
  rewrite routing_after_tab by assumption. reflexivity.
Qed.

(* ===================================================================== *)
(** ** Entries of tabulated tensors; zero tensors *)
(* ===================================================================== *)

Lemma at3_tab3 (n1 n2 n3 : nat) f (i j k : nat) :
  (i < n1)%nat -> (j < n2)%nat -> (k < n3)%nat ->
  at3 (tab3 n1 n2 n3 f) i j k = f i j k.
Proof.
  intros Hi Hj Hk. unfold at3, tab3, tab2.
  now rewrite !nth_tab by assumption.
Qed.

Lemma at4_tab4 (n1 n2 n3 n4 : nat) f (i j k l : nat) :
  (i < n1)%nat -> (j < n2)%nat -> (k < n3)%nat -> (l < n4)%nat ->
  at4 (tab4 n1 n2 n3 n4 f) i j k l = f i j k l.
Proof.
  intros Hi Hj Hk Hl. unfold at4, tab4, tab3, tab2.
  now rewrite !nth_tab by assumption.
Qed.

Lemma has_shape_np_zeros (sh : list nat) :
  has_shape (np_zeros (length sh) sh) sh = true.
Proof.
  induction sh as [|d sh IH]; [reflexivity|].
  cbn [length np_zeros]. rewrite repeat_tab. apply has_shape_tab. now intros.
Qed.

Lemma nth_repeat_nil {A : Type} (i n : nat) (x : list A) :
  nth i (repeat x n) [] = x \/ nth i (repeat x n) [] = [].
Proof.
  revert i. induction n as [|n IH]; intros i; cbn [repeat].
  - right. now destruct i.
  - destruct i; cbn [nth]; [now left|apply IH].
Qed.

Lemma nth_repeat_zero (i n : nat) : nth i (repeat 0 n) 0 = 0.
Proof.
  revert i. induction n as [|n IH]; intros i; cbn [repeat].
  - now destruct i.
  - destruct i; cbn [nth]; [reflexivity|apply IH].
Qed.

Lemma nth_nil_zero (i : nat) : nth i (@nil R) 0 = 0.
Proof. now destruct i. Qed.

Lemma nth_nil_nil {A : Type} (i : nat) : nth i (@nil (list A)) [] = [].
Proof. now destruct i. Qed.

(** Every entry of an all-zero rank-5 tensor reads 0. *)
Lemma at5_np_zeros (n1 n2 n3 n4 n5 : nat) (b i j k l : nat) :
  at5 (np_zeros 5 [n1; n2; n3; n4; n5]) b i j k l = 0.
Proof.
  unfold at5. cbn [np_zeros].
  change (nth l (nth k (nth j (nth i
            (nth b (repeat (repeat (repeat (repeat (repeat 0 n5) n4) n3) n2) n1) [])
            []) []) []) 0 = 0).
  destruct (nth_repeat_nil b n1 (repeat (repeat (repeat (repeat 0 n5) n4) n3) n2)) as [-> | ->];
    [|now rewrite !nth_nil_nil, nth_nil_zero].
  destruct (nth_repeat_nil i n2 (repeat (repeat (repeat 0 n5) n4) n3)) as [-> | ->];
    [|now rewrite !nth_nil_nil, nth_nil_zero].
  destruct (nth_repeat_nil j n3 (repeat (repeat 0 n5) n4)) as [-> | ->];
    [|now rewrite !nth_nil_nil, nth_nil_zero].
  destruct (nth_repeat_nil k n4 (repeat 0 n5)) as [-> | ->];
    [apply nth_repeat_zero|apply nth_nil_zero].
Qed.

(** *** The routing specification on zero votes *)

Section ZeroVotes.

Variables N_in N_out D_out : nat.
Variable votes : nat -> nat -> nat -> R.
Hypothesis votes_zero : forall i j d, votes i j d = 0.

Lemma spec_s_zero b j d : spec_s N_in N_out votes b j d = 0.
Proof.
  unfold spec_s. apply Rsum_zero. intros i _. rewrite votes_zero. lra.
Qed.

Lemma spec_v_zero b j d : spec_v N_in N_out D_out votes b j d = 0.
Proof.
  unfold spec_v. cbv zeta. rewrite (spec_s_zero b j d).
  unfold Rdiv. now rewrite Rmult_0_l, Rmult_0_r.
Qed.

Lemma spec_agreement_zero b i j : spec_agreement N_in N_out D_out votes b i j = 0.
Proof.
  unfold spec_agreement. apply Rsum_zero. intros d _. rewrite votes_zero. lra.
Qed.

Lemma spec_logits_zero r i j : spec_logits N_in N_out D_out votes r i j = 0.
Proof.
  induction r as [|r IH]; [reflexivity|].
  cbn [spec_logits]. unfold spec_update. rewrite IH, spec_agreement_zero. lra.
Qed.

End ZeroVotes.

Lemma spec_votes_zero_input (cfg : config) (Weight : tensor 5) (b i j d : nat) :
  spec_votes Weight (np_zeros 5 (input_shape cfg)) b i j d = 0.
Proof.
  unfold spec_votes, input_shape. apply Rsum_zero. intros k _.
  rewrite at5_np_zeros. lra.
Qed.

(** [routing] on the all-zero input: both results are all zero. *)
Lemma routing_zero_input (cfg : config) (Weight : tensor 5) :
  has_shape Weight weight_shape = true ->
  (1 <= iter_routing cfg)%nat ->
  routing cfg Weight (np_zeros 5 (input_shape cfg)) =
  Ok ((np_zeros 3 [batch_size cfg; num_caps_l_plus_1; len_v_j],
       np_zeros 3 [batch_size cfg; num_caps_l; num_caps_l_plus_1]),
      prologue_calls ++ loop_calls 0 (iter_routing cfg)).
Proof.
  intros HW HR.
  destruct (iter_routing cfg) as [|k] eqn:Ek; [lia|].
  assert (HI : has_shape (np_zeros 5 (input_shape cfg)) (input_shape cfg) = true)
    by apply (has_shape_np_zeros (input_shape cfg)).
  rewrite (routing_tab cfg Weight _ k HW HI Ek).
  cbv zeta. rewrite !np_zeros_tab3. do 3 f_equal.
  - unfold tab3, tab2. apply tab_ext. intros b _. apply tab_ext. intros j _.
    apply tab_ext. intros d _. apply spec_v_zero. intros. apply spec_votes_zero_input.
  - unfold tab3, tab2, batch_logits. apply tab_ext. intros b _. apply tab_ext. intros i _.
    apply tab_ext. intros j _. apply spec_logits_zero. intros. apply spec_votes_zero_input.
Qed.

Lemma Weight0_shape : has_shape Weight0 weight_shape = true.
Proof. apply (has_shape_np_zeros weight_shape). Qed.

Lemma input0_shape : has_shape input0 (input_shape cfg0) = true.
Proof. apply (has_shape_np_zeros (input_shape cfg0)). Qed.

(* ===================================================================== *)
(** ** The routing iterator (section 4.3) *)
(* ===================================================================== *)

Lemma count_scope_loop_calls (start n : nat) : count is_scope (loop_calls start n) = n.
Proof.
  unfold count. revert start. induction n as [|n IH]; intros start; [reflexivity|].
  rewrite loop_calls_S, filter_app, length_app, IH. reflexivity.
Qed.

Lemma count_matmul_loop_calls (start n : nat) : count is_matmul (loop_calls start n) = O.
Proof.
  unfold count. revert start. induction n as [|n IH]; intros start; [reflexivity|].
  rewrite loop_calls_S, filter_app, length_app, IH. reflexivity.
Qed.

(** C1.  On an input and a weight of the declared shapes and for an
    iteration count [R >= 1], [routing] starts from the zero logits of shape
    [batch_size, 1152, 10], runs the loop body [R] times in sequence (the
    trace is the prologue followed by the calls of iterations [0 .. R-1], with
    no early exit), and returns the pair [(v, b)] where [b] is the logits of
    the specification after [R] additive updates and [v], of shape
    [batch_size, 10, 16], is the squashed weighted sum computed from the
    logits after [R-1] updates. *)
Theorem routing_refines_spec (cfg : config) (Weight input : tensor 5) :
  has_shape Weight weight_shape = true ->
  has_shape input (input_shape cfg) = true ->
  (1 <= iter_routing cfg)%nat ->
  let B := batch_size cfg in
  let R := iter_routing cfg in
  let u := spec_votes Weight input in
  exists (st0 : locals) (v b : tensor 3),
    routing_after cfg Weight input 0 = Ok (st0, prologue_calls) /\
    b_IJ st0 = np_zeros 3 [B; num_caps_l; num_caps_l_plus_1] /\
    v_J st0 = None /\
    routing cfg Weight input = Ok ((v, b), prologue_calls ++ loop_calls 0 R) /\
    count is_scope (prologue_calls ++ loop_calls 0 R) = R /\
    has_shape v [B; num_caps_l_plus_1; len_v_j] = true /\
    has_shape b [B; num_caps_l; num_caps_l_plus_1] = true /\
    (forall n j d, (n < B)%nat -> (j < num_caps_l_plus_1)%nat -> (d < len_v_j)%nat ->
       at3 v n j d =
       spec_v num_caps_l num_caps_l_plus_1 len_v_j (u n)
         (spec_logits num_caps_l num_caps_l_plus_1 len_v_j (u n) (R - 1)) j d) /\
    (forall n i j, (n < B)%nat -> (i < num_caps_l)%nat -> (j < num_caps_l_plus_1)%nat ->
       at3 b n i j = spec_logits num_caps_l num_caps_l_plus_1 len_v_j (u n) R i j).
Proof.
  intros HW HI HR B R u.
  destruct (iter_routing cfg) as [|k] eqn:Ek; [lia|].
  eexists _, _, _.
  split; [rewrite (routing_after_tab cfg Weight input 0 HW HI); reflexivity|].
  split; [cbn [tab_locals b_IJ]; cbv zeta; now rewrite np_zeros_tab3|].
  split; [reflexivity|].
  split; [subst R; apply (routing_tab cfg Weight input k HW HI Ek)|].
  split.
  { unfold count. rewrite filter_app, length_app.
    change (length (filter is_scope (loop_calls 0 R))) with (count is_scope (loop_calls 0 R)).
    rewrite count_scope_loop_calls. reflexivity. }
  split; [apply has_shape_tab3|].
  split; [apply has_shape_tab3|].
  split.
  - intros n j d Hn Hj Hd. rewrite at3_tab3 by assumption.
    subst R. cbn [Nat.sub]. rewrite Nat.sub_0_r. reflexivity.
  - intros n i j Hn Hi Hj. rewrite at3_tab3 by assumption. reflexivity.
Qed.

(** The run of C1 on the all-zero tensors of the declared shapes. *)
Lemma routing_refines_spec_witness :
  has_shape Weight0 weight_shape = true /\
  has_shape input0 (input_shape cfg0) = true /\
  exists (st0 : locals) (v b : tensor 3),
    routing_after cfg0 Weight0 input0 0 = Ok (st0, prologue_calls) /\
    b_IJ st0 = np_zeros 3 [1%nat; num_caps_l; num_caps_l_plus_1] /\
    v_J st0 = None /\
    routing cfg0 Weight0 input0 = Ok ((v, b), prologue_calls ++ loop_calls 0 3) /\
    count is_scope (prologue_calls ++ loop_calls 0 3) = 3%nat /\
    has_shape v [1%nat; num_caps_l_plus_1; len_v_j] = true /\
    has_shape b [1%nat; num_caps_l; num_caps_l_plus_1] = true /\
    (forall n j d, (n < 1)%nat -> (j < num_caps_l_plus_1)%nat -> (d < len_v_j)%nat ->
       at3 v n j d =
       spec_v num_caps_l num_caps_l_plus_1 len_v_j (spec_votes Weight0 input0 n)
         (spec_logits num_caps_l num_caps_l_plus_1 len_v_j
            (spec_votes Weight0 input0 n) 2) j d) /\
    (forall n i j, (n < 1)%nat -> (i < num_caps_l)%nat -> (j < num_caps_l_plus_1)%nat ->
       at3 b n i j =
       spec_logits num_caps_l num_caps_l_plus_1 len_v_j (spec_votes Weight0 input0 n) 3 i j).
Proof.
  split; [exact Weight0_shape|]. split; [exact input0_shape|].
  apply (routing_refines_spec cfg0 Weight0 input0 Weight0_shape input0_shape).
  cbn. lia.
Defined.

Lemma num_caps_l_plus_1_pos : (0 < num_caps_l_plus_1)%nat.
Proof. unfold num_caps_l_plus_1. lia. Qed.

(** The softmax of any logits sums to 1 over a nonempty axis. *)
Lemma spec_c_sum (N_out : nat) (b : nat -> nat -> R) (i : nat) :
  (0 < N_out)%nat -> Rsum N_out (fun j => spec_c N_out b i j) = 1.
Proof.
  intros HN. unfold spec_c. rewrite Rsum_scale.
  assert (0 < Rsum N_out (fun j' => exp (b i j')))
    by (apply Rsum_pos; [assumption|intros; apply exp_pos]).
  field. lra.
Qed.

(** The softmax of zero logits is uniform. *)
Lemma spec_c_uniform (N_out : nat) (b : nat -> nat -> R) (i j : nat) :
  (0 < N_out)%nat -> (forall j', b i j' = 0) -> spec_c N_out b i j = 1 / INR N_out.
Proof.
  intros HN Hb. unfold spec_c.
  rewrite (Rsum_ext N_out _ (fun _ => 1)) by (intros; now rewrite Hb, exp_0).
  rewrite Rsum_const, Hb, exp_0. now rewrite Rmult_1_r.
Qed.

(** C3.  In the iteration of index [r] of a run (the first has index 0), the
    coupling coefficients [c_IJ], of shape [batch_size, 1152, 10, 1], sum to 1
    over the 10 higher capsules for every batch element and lower capsule;
    in the first iteration every coefficient is exactly 1/10. *)
Theorem coupling_coefficients_normalised (cfg : config) (Weight input : tensor 5) (r : nat) :
  has_shape Weight weight_shape = true ->
  has_shape input (input_shape cfg) = true ->
  (r < iter_routing cfg)%nat ->
  exists (st : locals) (c : tensor 4),
    routing_after cfg Weight input (S r) = Ok (st, prologue_calls ++ loop_calls 0 (S r)) /\
    c_IJ st = Some c /\
    has_shape c [batch_size cfg; num_caps_l; num_caps_l_plus_1; 1%nat] = true /\
    (forall n i, (n < batch_size cfg)%nat -> (i < num_caps_l)%nat ->
       Rsum num_caps_l_plus_1 (fun j => at4 c n i j 0) = 1) /\
    (r = O ->
     forall n i j, (n < batch_size cfg)%nat -> (i < num_caps_l)%nat ->
       (j < num_caps_l_plus_1)%nat -> at4 c n i j 0 = 1 / 10).
Proof.
  intros HW HI Hr.
  eexists _, _.
  split; [apply (routing_after_tab cfg Weight input (S r) HW HI)|].
  split; [reflexivity|].
  split; [apply has_shape_tab4|].
  split.
  - intros n i Hn Hi.
    rewrite (Rsum_ext _ _ (fun j => spec_c num_caps_l_plus_1
               (batch_logits (spec_votes Weight input) r n) i j)).
    + apply spec_c_sum, num_caps_l_plus_1_pos.
    + intros j Hj. rewrite at4_tab4 by (assumption || lia). reflexivity.
  - intros -> n i j Hn Hi Hj. rewrite at4_tab4 by (assumption || lia).
    rewrite spec_c_uniform by (apply num_caps_l_plus_1_pos || reflexivity).
    unfold num_caps_l_plus_1. cbn [INR]. lra.
Qed.

(** C3 at the first iteration of the run on the all-zero tensors. *)
Lemma coupling_coefficients_normalised_witness :
  exists (st : locals) (c : tensor 4),
    routing_after cfg0 Weight0 input0 1 = Ok (st, prologue_calls ++ loop_calls 0 1) /\
    c_IJ st = Some c /\
    has_shape c [batch_size cfg0; num_caps_l; num_caps_l_plus_1; 1%nat] = true /\
    (forall n i, (n < batch_size cfg0)%nat -> (i < num_caps_l)%nat ->
       Rsum num_caps_l_plus_1 (fun j => at4 c n i j 0) = 1) /\
    (O = O ->
     forall n i j, (n < batch_size cfg0)%nat -> (i < num_caps_l)%nat ->
       (j < num_caps_l_plus_1)%nat -> at4 c n i j 0 = 1 / 10).
Proof.
  apply (coupling_coefficients_normalised cfg0 Weight0 input0 0 Weight0_shape input0_shape).
  cbn. lia.
Defined.

(* ===================================================================== *)
(** ** The votes (section 4.2) *)
(* ===================================================================== *)

Lemma Ok_pair_inj {A B : Type} (a a' : A) (b b' : B) :
  Ok (a, b) = Ok (a', b') -> a = a' /\ b = b'.
Proof. intros H. injection H. auto. Qed.

(** Whatever the locals, an iteration that completes leaves [u_hat] as it
    was and makes the ten calls of the loop body, none of them a matrix
    product. *)
Lemma iteration_frame (cfg : config) (r_iter : nat) (st st' : locals) (t : list call) :
  iteration cfg r_iter st = Ok (st', t) ->
  u_hat st' = u_hat st /\ t = iteration_calls r_iter.
Proof.
  unfold iteration. cbn [bind called ret].
  repeat match goal with
         | |- context [assert_ ?c] => destruct c; cbn [bind called ret assert_]
         end;
    intros H; try discriminate H.
  apply Ok_pair_inj in H. destruct H as [<- <-]. split; reflexivity.
Qed.

Lemma for_range_frame (cfg : config) (n start : nat) (st st' : locals) (t : list call) :
  for_range start n (iteration cfg) st = Ok (st', t) ->
  u_hat st' = u_hat st /\ t = loop_calls start n.
Proof.
  revert start st t. induction n as [|n IH]; intros start st t H.
  - apply Ok_pair_inj in H. destruct H as [<- <-]. split; reflexivity.
  - cbn [for_range] in H.
    destruct (iteration cfg start st) as [[st1 t1]|e] eqn:E1; [|discriminate H].
    cbn [bind] in H.
    destruct (for_range (S start) n (iteration cfg) st1) as [[st2 t2]|e] eqn:E2;
      [|discriminate H].
    apply Ok_pair_inj in H. destruct H as [<- <-].
    apply iteration_frame in E1. destruct E1 as [U1 ->].
    apply IH in E2. destruct E2 as [U2 ->].
    split; [congruence|apply eq_sym, loop_calls_S].
Qed.

(** C5.  In a run on tensors of the declared shapes the votes are bound by
    the statements before the loop, as
    [u_hat[b,i,j,d] = sum_k W[0,i,j,k,d] * U[b,i,0,k,0]] (the transposed weight
    of the pair [(i,j)], the same for every batch element, applied to the
    lower capsule); after any number [r] of loop iterations the local [u_hat]
    is that same tensor; the only matrix product of the trace is in the
    prologue, none is in the loop. *)
Theorem votes_computed_once (cfg : config) (Weight input : tensor 5) (r : nat) :
  has_shape Weight weight_shape = true ->
  has_shape input (input_shape cfg) = true ->
  (r <= iter_routing cfg)%nat ->
  exists (st0 st : locals),
    routing_prologue cfg Weight input = Ok (st0, prologue_calls) /\
    routing_after cfg Weight input r = Ok (st, prologue_calls ++ loop_calls 0 r) /\
    u_hat st = u_hat st0 /\
    has_shape (u_hat st0) [batch_size cfg; num_caps_l; num_caps_l_plus_1; len_v_j] = true /\
    (forall n i j d, (n < batch_size cfg)%nat -> (i < num_caps_l)%nat ->
       (j < num_caps_l_plus_1)%nat -> (d < len_v_j)%nat ->
       at4 (u_hat st0) n i j d =
       Rsum len_u_i (fun k => at5 Weight 0 i j k d * at5 input n i 0 k 0)) /\
    count is_matmul prologue_calls = 1%nat /\
    count is_matmul (loop_calls 0 r) = O /\
    (forall start st1 st2 t,
       for_range start r (iteration cfg) st1 = Ok (st2, t) -> u_hat st2 = u_hat st1).
Proof.
  intros HW HI Hr.
  eexists _, _.
  split; [apply (routing_prologue_tab cfg Weight input HW HI)|].
  split; [apply (routing_after_tab cfg Weight input r HW HI)|].
  split; [reflexivity|].
  split; [apply has_shape_tab4|].
  split.
  { intros n i j d Hn Hi Hj Hd. cbn [tab_locals u_hat]. cbv zeta.
    now rewrite at4_tab4 by assumption. }
  split; [reflexivity|].
  split; [apply count_matmul_loop_calls|].
  intros start st1 st2 t H. now apply for_range_frame in H.
Qed.

(** C5 on the whole run of three iterations on the all-zero tensors. *)
Lemma votes_computed_once_witness :
  exists (st0 st : locals),
    routing_prologue cfg0 Weight0 input0 = Ok (st0, prologue_calls) /\
    routing_after cfg0 Weight0 input0 3 = Ok (st, prologue_calls ++ loop_calls 0 3) /\
    u_hat st = u_hat st0 /\
    has_shape (u_hat st0) [batch_size cfg0; num_caps_l; num_caps_l_plus_1; len_v_j] = true /\
    (forall n i j d, (n < batch_size cfg0)%nat -> (i < num_caps_l)%nat ->
       (j < num_caps_l_plus_1)%nat -> (d < len_v_j)%nat ->
       at4 (u_hat st0) n i j d =
       Rsum len_u_i (fun k => at5 Weight0 0 i j k d * at5 input0 n i 0 k 0)) /\
    count is_matmul prologue_calls = 1%nat /\
    count is_matmul (loop_calls 0 3) = O /\
    (forall start st1 st2 t,
       for_range start 3 (iteration cfg0) st1 = Ok (st2, t) -> u_hat st2 = u_hat st1).
Proof.
  apply (votes_computed_once cfg0 Weight0 input0 3 Weight0_shape input0_shape).
  cbn. lia.
Defined.

(* ===================================================================== *)
(** ** Zero input; repeated invocations *)
(* ===================================================================== *)

(** C7.  Whatever the weight (of the declared shape) and the iteration
    count [R >= 1], on the all-zero capsule input [routing] returns the
    all-zero tensor of shape [batch_size, 10, 16] as its output capsules
    (and leaves the logits at zero): the votes are zero, so are the weighted
    sums, and [squash] maps the zero vector to the zero vector. *)
Theorem zero_input_zero_output (cfg : config) (Weight : tensor 5) :
  has_shape Weight weight_shape = true ->
  (1 <= iter_routing cfg)%nat ->
  exists (b : tensor 3) (t : list call),
    routing cfg Weight (np_zeros 5 (input_shape cfg)) =
      Ok ((np_zeros 3 [batch_size cfg; num_caps_l_plus_1; len_v_j], b), t) /\
    (forall n j d, at3 (np_zeros 3 [batch_size cfg; num_caps_l_plus_1; len_v_j]) n j d = 0) /\
    (forall m : nat, squash (n := 0) (np_zeros 1 [m]) = np_zeros 1 [m]).
Proof.
  intros HW HR. eexists _, _.
  split; [apply (routing_zero_input cfg Weight HW HR)|].
  split.
  - intros n j d. unfold at3. cbn [np_zeros].
    change (nth d (nth j (nth n (repeat (repeat (repeat 0 len_v_j) num_caps_l_plus_1)
                                   (batch_size cfg)) []) []) 0 = 0).
    destruct (nth_repeat_nil n (batch_size cfg) (repeat (repeat 0 len_v_j) num_caps_l_plus_1))
      as [-> | ->]; [|now rewrite nth_nil_nil, nth_nil_zero].
    destruct (nth_repeat_nil j num_caps_l_plus_1 (repeat 0 len_v_j)) as [-> | ->];
      [apply nth_repeat_zero|apply nth_nil_zero].
  - intros m. rewrite squash_rank1. cbn [np_zeros].
    change (map (fun x : R => sq_norm (repeat 0 m) / (1 + sq_norm (repeat 0 m)) /
                              sqrt (sq_norm (repeat 0 m) + 1e-7) * x) (repeat 0 m) = repeat 0 m).
    rewrite map_repeat. now rewrite Rmult_0_r.
Qed.

(** C7 with the all-zero weight and three iterations. *)
Lemma zero_input_zero_output_witness :
  exists (b : tensor 3) (t : list call),
    routing cfg0 Weight0 (np_zeros 5 (input_shape cfg0)) =
      Ok ((np_zeros 3 [batch_size cfg0; num_caps_l_plus_1; len_v_j], b), t) /\
    (forall n j d, at3 (np_zeros 3 [batch_size cfg0; num_caps_l_plus_1; len_v_j]) n j d = 0) /\
    (forall m : nat, squash (n := 0) (np_zeros 1 [m]) = np_zeros 1 [m]).
Proof.
  apply (zero_input_zero_output cfg0 Weight0 Weight0_shape).
  cbn. lia.
Defined.

Lemma routing_invocation_fresh (cfg : config) (vs : variable_store) (W U : tensor 5) :
  lookup_variable "Weight" vs = None ->
  routing_invocation cfg vs W U = (("Weight"%string, PyTensor 5 W) :: vs, routing cfg W U).
Proof. intros H. unfold routing_invocation. now rewrite H. Qed.

Lemma routing_invocation_again (cfg : config) (vs : variable_store) (x : pyval)
    (W U : tensor 5) :
  routing_invocation cfg (("Weight"%string, x) :: vs) W U =
  (("Weight"%string, x) :: vs, Raise ValueError).
Proof. reflexivity. Qed.

(** C9, as stated, fails: of two invocations of [routing] in one variable
    scope, with the same input, the same value drawn for the weight and the
    same iteration count, the first creates the variable [Weight] and returns
    a pair, and the second finds the variable in the store and raises
    [ValueError]: it produces no output capsules and no logits. *)
Lemma routing_second_invocation_raises :
  exists (vs : variable_store) (v b : tensor 3) (t : list call),
    routing_invocation cfg0 [] Weight0 input0 = (vs, Ok ((v, b), t)) /\
    routing_invocation cfg0 vs Weight0 input0 = (vs, Raise ValueError).
Proof.
  eexists _, _, _, _. split.
  - unfold routing_invocation. cbn [lookup_variable].
    unfold input0. rewrite (routing_zero_input cfg0 Weight0 Weight0_shape) by (cbn; lia).
    reflexivity.
  - reflexivity.
Qed.

(** C9, amended.  The weight is not an argument of [routing]: every
    invocation creates the variable [Weight], whose value the initializer
    draws.  Two invocations that each run in a variable store without a
    variable [Weight], for which the same value [W] is drawn, on the same
    input [U] (of the declared shape) and with the same iteration count
    [R >= 1], return the same output capsules and the same final logits (and
    make the same calls), whatever else the stores and the configurations
    hold: the values section 4.3 defines from [U], [W] and [R].  Each leaves
    the variable in its store, and any further invocation in that store
    raises [ValueError]. *)
Theorem routing_deterministic (cfg1 cfg2 : config) (vs1 vs2 : variable_store)
    (W U : tensor 5) :
  lookup_variable "Weight" vs1 = None ->
  lookup_variable "Weight" vs2 = None ->
  has_shape W weight_shape = true ->
  has_shape U (input_shape cfg1) = true ->
  has_shape U (input_shape cfg2) = true ->
  iter_routing cfg1 = iter_routing cfg2 ->
  (1 <= iter_routing cfg1)%nat ->
  let R := iter_routing cfg1 in
  let u := spec_votes W U in
  exists (v b : tensor 3) (t : list call),
    routing_invocation cfg1 vs1 W U =
      (("Weight"%string, PyTensor 5 W) :: vs1, Ok ((v, b), t)) /\
    routing_invocation cfg2 vs2 W U =
      (("Weight"%string, PyTensor 5 W) :: vs2, Ok ((v, b), t)) /\
    (forall n j d, (n < length U)%nat -> (j < num_caps_l_plus_1)%nat -> (d < len_v_j)%nat ->
       at3 v n j d =
       spec_v num_caps_l num_caps_l_plus_1 len_v_j (u n)
         (spec_logits num_caps_l num_caps_l_plus_1 len_v_j (u n) (R - 1)) j d) /\
    (forall n i j, (n < length U)%nat -> (i < num_caps_l)%nat -> (j < num_caps_l_plus_1)%nat ->
       at3 b n i j = spec_logits num_caps_l num_caps_l_plus_1 len_v_j (u n) R i j) /\
    (forall cfg W' U',
       routing_invocation cfg (("Weight"%string, PyTensor 5 W) :: vs1) W' U' =
         (("Weight"%string, PyTensor 5 W) :: vs1, Raise ValueError)) /\
    (forall cfg W' U',
       routing_invocation cfg (("Weight"%string, PyTensor 5 W) :: vs2) W' U' =
         (("Weight"%string, PyTensor 5 W) :: vs2, Raise ValueError)).
Proof.
  intros Hv1 Hv2 HW HU1 HU2 HR H1 R u.
  assert (HB1 : length U = batch_size cfg1) by (apply has_shape_cons in HU1; tauto).
  assert (HB2 : length U = batch_size cfg2) by (apply has_shape_cons in HU2; tauto).
  destruct (iter_routing cfg1) as [|k] eqn:Ek; [lia|].
  eexists _, _, _.
  split; [rewrite (routing_invocation_fresh cfg1 vs1 W U Hv1);
          rewrite (routing_tab cfg1 W U k HW HU1 Ek); reflexivity|].
  split; [rewrite (routing_invocation_fresh cfg2 vs2 W U Hv2);
          rewrite (routing_tab cfg2 W U k HW HU2 (eq_sym HR)); cbv zeta;
          rewrite <- HB1, <- HB2; reflexivity|].
  split; [|split; [|split]].
  - intros n j d Hn Hj Hd. rewrite at3_tab3 by (assumption || lia).
    subst R. cbn [Nat.sub]. rewrite Nat.sub_0_r. reflexivity.
  - intros n i j Hn Hi Hj. rewrite at3_tab3 by (assumption || lia). reflexivity.
  - intros cfg W' U'. apply routing_invocation_again.
  - intros cfg W' U'. apply routing_invocation_again.
Qed.

(** C9 amended, on the all-zero tensors: one invocation under [cfg0] in the
    empty store and one under [cfg0'] in a store that holds the biases of a
    convolution. *)
Lemma routing_deterministic_witness :
  exists (v b : tensor 3) (t : list call),
    routing_invocation cfg0 [] Weight0 input0 =
      ([("Weight"%string, PyTensor 5 Weight0)], Ok ((v, b), t)) /\
    routing_invocation cfg0' store_with_biases Weight0 input0 =
      (("Weight"%string, PyTensor 5 Weight0) :: store_with_biases, Ok ((v, b), t)).
Proof.
  destruct (routing_deterministic cfg0 cfg0' [] store_with_biases Weight0 input0
              eq_refl eq_refl Weight0_shape input0_shape input0_shape eq_refl)
    as (v & b & t & H1 & H2 & _).
  - cbn. lia.
  - exists v, b, t. split; assumption.
Defined.

(* ===================================================================== *)
(** ** The interface of [routing] and of [CapsLayer.__call__] *)
(* ===================================================================== *)

(** C8, as stated, fails: a call [routing(input, weight, iterations)] binds
    three arguments to the one parameter of [def routing(input)] and raises
    [TypeError]; it returns no pair. *)
Lemma routing_three_arguments_rejected :
  ~ exists out : tensor 3 * tensor 3 * list call,
      routing_py cfg0 Weight0 [PyTensor 5 input0; PyTensor 5 Weight0; PyInt 3] = Ok out.
Proof. intros [out H]. discriminate H. Qed.

(** C8, amended.  [routing] takes the low-level capsule input as its only
    parameter: a call with any other number of arguments raises [TypeError].
    The weight is the variable [Weight] of the variable store and the
    iteration count is [cfg.iter_routing].  Called on an input of the
    declared shape (with [cfg.iter_routing >= 1]) it returns the pair
    [(v_J, b_IJ)] of the output capsules and the final logits. *)
Theorem routing_one_parameter (cfg : config) (Weight input : tensor 5) :
  has_shape Weight weight_shape = true ->
  has_shape input (input_shape cfg) = true ->
  (1 <= iter_routing cfg)%nat ->
  (forall args : list pyval, length args <> 1%nat ->
     routing_py cfg Weight args = Raise TypeError) /\
  exists (st : locals) (v b : tensor 3) (t : list call),
    routing_py cfg Weight [PyTensor 5 input] = Ok ((v, b), t) /\
    routing_after cfg Weight input (iter_routing cfg) = Ok (st, t) /\
    v_J st = Some v /\ b_IJ st = b /\
    has_shape v [batch_size cfg; num_caps_l_plus_1; len_v_j] = true /\
    has_shape b [batch_size cfg; num_caps_l; num_caps_l_plus_1] = true.
Proof.
  intros HW HI HR. split.
  - intros [|a [|a' args]] Hlen; cbn [length] in Hlen; try reflexivity. lia.
  - destruct (iter_routing cfg) as [|k] eqn:Ek; [lia|].
    eexists _, _, _, _.
    split; [cbn [routing_py]; apply (routing_tab cfg Weight input k HW HI Ek)|].
    split; [apply (routing_after_tab cfg Weight input (S k) HW HI)|].
    split; [reflexivity|]. split; [reflexivity|].
    split; apply has_shape_tab3.
Qed.

(** C8 amended, on the all-zero tensors. *)
Lemma routing_one_parameter_witness :
  (forall args : list pyval, length args <> 1%nat ->
     routing_py cfg0 Weight0 args = Raise TypeError) /\
  exists (st : locals) (v b : tensor 3) (t : list call),
    routing_py cfg0 Weight0 [PyTensor 5 input0] = Ok ((v, b), t) /\
    routing_after cfg0 Weight0 input0 (iter_routing cfg0) = Ok (st, t) /\
    v_J st = Some v /\ b_IJ st = b /\
    has_shape v [batch_size cfg0; num_caps_l_plus_1; len_v_j] = true /\
    has_shape b [batch_size cfg0; num_caps_l; num_caps_l_plus_1] = true.
Proof.
  apply (routing_one_parameter cfg0 Weight0 input0 Weight0_shape input0_shape).
  cbn. lia.
Defined.

(** C10.  A layer built with [layer_type='CONV'] and [with_routing=True], or
    with [layer_type='FC'] and [with_routing=False], returns no capsule
    tensor from [__call__], whatever the input: the first leaves both [if]
    blocks without a [return] and the call evaluates to [None]; the second
    reaches [return(capsules)] with the local [capsules] never bound and
    raises [UnboundLocalError]. *)
Theorem unsupported_layer_kinds (cfg : config) (Weight : tensor 5) (conv2d : conv2d_layer)
    (self : CapsLayer) (input : tensor 4) (kernel_size stride : option nat) :
  (layer_type self = "CONV"%string /\ with_routing self = true) \/
  (layer_type self = "FC"%string /\ with_routing self = false) ->
  snd (CapsLayer__call__ cfg Weight conv2d self input kernel_size stride) =
    (if with_routing self then Ok (PyNone, []) else Raise UnboundLocalError) /\
  (forall (n : nat) (capsules : tensor n) (t : list call),
     snd (CapsLayer__call__ cfg Weight conv2d self input kernel_size stride) <>
       Ok (PyTensor n capsules, t)).
Proof.
  intros H.
  assert (E : snd (CapsLayer__call__ cfg Weight conv2d self input kernel_size stride) =
              (if with_routing self then Ok (PyNone, []) else Raise UnboundLocalError)).
  { unfold CapsLayer__call__, CapsLayer_if_CONV.
    destruct H as [[Ht Hr] | [Ht Hr]]; rewrite Ht, Hr; cbn [String.eqb Ascii.eqb Bool.eqb negb ret];
      cbn [layer_type with_routing]; rewrite ?Ht, ?Hr; reflexivity. }
  split; [exact E|].
  intros n capsules t. rewrite E. destruct (with_routing self); discriminate.
Qed.

(** C10 on the two layers [CapsLayer(32, 8, True, 'CONV')] and
    [CapsLayer(10, 16, False, 'FC')]. *)
Lemma unsupported_layer_kinds_witness :
  snd (CapsLayer__call__ cfg0 Weight0 (fun _ _ _ _ => Raise ValueError)
         (CapsLayer__init__ 32 8 (Some true) (Some "CONV"%string)) [] (Some 9%nat) (Some 2%nat)) =
    Ok (PyNone, []) /\
  snd (CapsLayer__call__ cfg0 Weight0 (fun _ _ _ _ => Raise ValueError)
         (CapsLayer__init__ 10 16 (Some false) None) [] None None) =
    Raise UnboundLocalError.
Proof.
  split.
  - apply (unsupported_layer_kinds cfg0 Weight0 (fun _ _ _ _ => Raise ValueError)
             (CapsLayer__init__ 32 8 (Some true) (Some "CONV"%string)) [] (Some 9%nat) (Some 2%nat)).
    left. split; reflexivity.
  - apply (unsupported_layer_kinds cfg0 Weight0 (fun _ _ _ _ => Raise ValueError)
             (CapsLayer__init__ 10 16 (Some false) None) [] None None).
    right. split; reflexivity.
Defined.

(* ===================================================================== *)
(** ** squash (section 4.1) *)
(* ===================================================================== *)

Lemma forallb_const {A : Type} (c : bool) (l : list A) :
  forallb (fun _ => c) l = match l with [] => true | _ :: _ => c end.
Proof.
  induction l as [|x l IH]; [reflexivity|].
  cbn [forallb]. rewrite IH. destruct c, l; reflexivity.
Qed.

Lemma forallb_map_ext {A B : Type} (p : A -> bool) (q : B -> bool) (g : B -> A) (l : list B) :
  (forall x, In x l -> p (g x) = q x) -> forallb p (map g l) = forallb q l.
Proof.
  induction l as [|x l IH]; intros H; [reflexivity|].
  cbn [map forallb]. rewrite IH by (intros y Hy; apply H; now right).
  rewrite H by now left. reflexivity.
Qed.

(** A map of the pose vectors that keeps their lengths keeps the shape. *)
Lemma has_shape_map_last (n : nat) (f : list R -> list R) :
  (forall v, length (f v) = length v) ->
  forall (t : tensor (S n)) (sh : list nat),
    has_shape (map_last f t) sh = has_shape t sh.
Proof.
  intros Hlen. induction n as [|n IH]; intros t sh.
  - destruct sh as [|d sh]; [reflexivity|].
    cbn [has_shape map_last]. rewrite !forallb_const.
    pose proof (Hlen t) as E. rewrite E.
    destruct (f t), t; cbn [length] in E; try discriminate; reflexivity.
  - destruct sh as [|d sh]; [reflexivity|].
    change (has_shape (n := S (S n)) (map (map_last f) t) (d :: sh) = has_shape t (d :: sh)).
    cbn [has_shape]. rewrite length_map. f_equal.
    apply forallb_map_ext. intros x _. apply IH.
Qed.

Lemma spec_squash_vec_length (v : list R) : length (spec_squash_vec v) = length v.
Proof. unfold spec_squash_vec. cbv zeta. apply length_map. Qed.

Lemma has_shape_squash (n : nat) (t : tensor (S n)) (sh : list nat) :
  has_shape (squash t) sh = has_shape t sh.
Proof.
  rewrite squash_map_last. apply has_shape_map_last, spec_squash_vec_length.
Qed.

Lemma sq_norm_cons (x : R) (v : list R) : sq_norm (x :: v) = x * x + sq_norm v.
Proof. reflexivity. Qed.

Lemma sq_norm_In (x : R) (v : list R) : In x v -> x * x <= sq_norm v.
Proof.
  induction v as [|y v IH]; intros H; [destruct H|].
  rewrite sq_norm_cons. pose proof (sq_norm_nonneg v) as Hv.
  destruct H as [-> | H].
  - lra.
  - specialize (IH H). nra.
Qed.

Lemma sqrt_eps_gap (s : R) :
  0 < s -> sqrt (s + 1e-7) * sqrt (s + 1e-7) = s + 1e-7 /\
           sqrt s * sqrt s = s /\ 0 < sqrt s < sqrt (s + 1e-7).
Proof.
  intros Hs. pose proof eps_pos as He.
  repeat split.
  - apply sqrt_sqrt. lra.
  - apply sqrt_sqrt. lra.
  - now apply sqrt_lt_R0.
  - apply sqrt_lt_1; lra.
Qed.

Lemma Rdiv_lt_bound (x y c : R) : 0 < y -> x < c * y -> x / y < c.
Proof.
  intros Hy H. apply (Rmult_lt_reg_r y); [assumption|].
  unfold Rdiv. rewrite Rmult_assoc, Rinv_l by lra. lra.
Qed.

Lemma nth_map_lt {A B : Type} (f : A -> B) (l : list A) (i : nat) (d : A) (d' : B) :
  (i < length l)%nat -> nth i (map f l) d' = f (nth i l d).
Proof.
  intros Hi. rewrite (nth_indep _ d' (f d)) by now rewrite length_map.
  apply map_nth.
Qed.

(** On a nonzero vector every component of the squash differs from the
    squash without the constant by less than the constant. *)
Lemma squash_eps_immaterial (v : list R) (i : nat) :
  0 < sq_norm v ->
  Rabs (nth i (spec_squash_vec v) 0 - nth i (exact_squash_vec v) 0) < 1e-7.
Proof.
  intros Hs. pose proof eps_pos as He.
  destruct (Nat.lt_ge_cases i (length v)) as [Hi | Hi].
  - unfold spec_squash_vec, exact_squash_vec. cbv zeta.
    set (s := sq_norm v) in *.
    rewrite !(nth_map_lt _ v i 0 0) by assumption.
    set (x := nth i v 0).
    assert (Hx : x * x <= s) by (apply sq_norm_In, nth_In, Hi).
    destruct (sqrt_eps_gap s Hs) as (Hb & Ha & Ha0 & Hab).
    set (a := sqrt s) in *. set (b := sqrt (s + 1e-7)) in *.
    assert (Hxa : Rabs x <= a) by (apply Rabs_le; split; nra).
    assert (Hgap : 0 < 1 / a - 1 / b).
    { apply Rlt_0_minus. unfold Rdiv. rewrite !Rmult_1_l.
      apply Rinv_lt_contravar; nra. }
    assert (HK : 0 < s / (1 + s)) by (apply Rdiv_lt_0_compat; lra).
    replace (s / (1 + s) * (x / b) - s / (1 + s) * (x / a))
      with (- (s / (1 + s) * (1 / a - 1 / b)) * x) by (field; lra).
    rewrite Rabs_mult, Rabs_Ropp, (Rabs_pos_eq (s / (1 + s) * (1 / a - 1 / b))) by nra.
    apply Rle_lt_trans with (s / (1 + s) * (1 / a - 1 / b) * a).
    { apply Rmult_le_compat_l; [nra|exact Hxa]. }
    replace (s / (1 + s) * (1 / a - 1 / b) * a)
      with (s * ((b - a) * (b + a)) / ((1 + s) * b * (a + b))) by (field; lra).
    replace ((b - a) * (b + a)) with 1e-7 by nra.
    assert (Hden : 0 < (1 + s) * b * (a + b)) by (repeat apply Rmult_lt_0_compat; lra).
    apply Rdiv_lt_bound; [exact Hden|].
    assert (s < b * (a + b)) by nra.
    nra.
  - rewrite !nth_overflow by (unfold spec_squash_vec, exact_squash_vec; cbv zeta;
                              now rewrite length_map).
    rewrite Rminus_diag, Rabs_R0. exact He.
Qed.

(** C4.  [squash] returns a tensor of the shape of its argument (the two
    have the same shapes, whatever the rank), in which every vector [v] along
    the last axis is replaced by [(s / (1+s)) * (v / sqrt(s + 1e-7))] with
    [s = ||v||^2].  The constant keeps the divisor positive for every [v],
    and on a nonzero [v] it moves no component of the result by as much as
    1e-7 from the squash without it. *)
Theorem squash_contract (n : nat) (t : tensor (S n)) (sh : list nat) (v : list R) (i : nat) :
  has_shape (squash t) sh = has_shape t sh /\
  squash t = map_last spec_squash_vec t /\
  0 < sqrt (sq_norm v + 1e-7) /\
  (0 < sq_norm v ->
   Rabs (nth i (spec_squash_vec v) 0 - nth i (exact_squash_vec v) 0) < 1e-7).
Proof.
  split; [apply has_shape_squash|].
  split; [apply squash_map_last|].
  split.
  - apply sqrt_lt_R0. pose proof (sq_norm_nonneg v). pose proof eps_pos. lra.
  - apply squash_eps_immaterial.
Qed.

(** C4 on the vector [[3; 4]] and its first component. *)
Lemma squash_contract_witness :
  0 < sq_norm [3; 4] /\
  Rabs (nth 0 (spec_squash_vec [3; 4]) 0 - nth 0 (exact_squash_vec [3; 4]) 0) < 1e-7.
Proof.
  assert (H : 0 < sq_norm [3; 4]) by (unfold sq_norm, sum_list; cbn; lra).
  split; [exact H|].
  exact (proj2 (proj2 (proj2 (squash_contract 0 [3; 4] [2%nat] [3; 4] 0))) H).
Defined.

(** *** The length of a squashed vector *)

Lemma sq_norm_pos (v : list R) : nonzero v -> 0 < sq_norm v.
Proof.
  intros [x [Hx Hne]]. apply sq_norm_In in Hx.
  assert (0 < x * x) by nra. lra.
Qed.

Lemma sq_norm_scale (k : R) (v : list R) :
  sq_norm (map (Rmult k) v) = k * k * sq_norm v.
Proof.
  induction v as [|x v IH]; [unfold sq_norm, sum_list; cbn; lra|].
  cbn [map]. rewrite !sq_norm_cons, IH. ring.
Qed.

Lemma scalar_factor_nonneg (s : R) : 0 <= s -> 0 <= scalar_factor_of s.
Proof.
  intros Hs. pose proof eps_pos as He. unfold scalar_factor_of.
  assert (0 < sqrt (s + 1e-7)) by (apply sqrt_lt_R0; lra).
  apply Rmult_le_pos; [apply Rmult_le_pos; [lra|]|]; left; apply Rinv_0_lt_compat; lra.
Qed.

Lemma squash_rank1_scale (v : list R) :
  squash (n := 0) v = map (Rmult (scalar_factor_of (sq_norm v))) v.
Proof. apply squash_rank1. Qed.

(** [||squash(v)|| = s/(1+s) * (sqrt s / sqrt(s + 1e-7))] with [s = ||v||^2]. *)
Lemma norm_squash (v : list R) :
  norm (squash (n := 0) v) =
  sq_norm v / (1 + sq_norm v) * (sqrt (sq_norm v) / sqrt (sq_norm v + 1e-7)).
Proof.
  rewrite squash_rank1_scale. unfold norm. rewrite sq_norm_scale.
  pose proof (sq_norm_nonneg v) as Hs. pose proof eps_pos as He.
  pose proof (scalar_factor_nonneg _ Hs) as Hk.
  rewrite sqrt_mult by nra. rewrite sqrt_square by exact Hk.
  unfold scalar_factor_of.
  assert (0 < sqrt (sq_norm v + 1e-7)) by (apply sqrt_lt_R0; lra).
  field. split; lra.
Qed.

Lemma squash_ratio_bounds (s : R) :
  0 <= s ->
  0 <= sqrt s / sqrt (s + 1e-7) <= 1 /\
  1 - sqrt s / sqrt (s + 1e-7) <= 1e-7 / (s + 1e-7) /\
  (0 < s -> 0 < sqrt s / sqrt (s + 1e-7) < 1).
Proof.
  intros Hs. pose proof eps_pos as He.
  assert (Hb : sqrt (s + 1e-7) * sqrt (s + 1e-7) = s + 1e-7) by (apply sqrt_sqrt; lra).
  assert (Ha : sqrt s * sqrt s = s) by (apply sqrt_sqrt; lra).
  assert (Ha0 : 0 <= sqrt s) by apply sqrt_pos.
  assert (Hb0 : 0 < sqrt (s + 1e-7)) by (apply sqrt_lt_R0; lra).
  assert (Hab : sqrt s < sqrt (s + 1e-7)) by (apply sqrt_lt_1; lra).
  set (a := sqrt s) in *. set (b := sqrt (s + 1e-7)) in *.
  assert (Hq : a / b < 1) by (apply Rdiv_lt_bound; lra).
  assert (Hq0 : 0 <= a / b) by (apply Rmult_le_pos; [lra|left; now apply Rinv_0_lt_compat]).
  split; [lra|]. split.
  - replace (1 - a / b) with ((b - a) / b) by (field; lra).
    replace (1e-7 / (s + 1e-7)) with ((b - a) * (b + a) / (b * b)) by (rewrite Hb; f_equal; nra).
    replace ((b - a) * (b + a) / (b * b)) with ((b - a) / b * ((b + a) / b)) by (field; lra).
    assert (0 <= (b - a) / b) by (apply Rmult_le_pos; [lra|left; now apply Rinv_0_lt_compat]).
    assert (1 <= (b + a) / b).
    { replace ((b + a) / b) with (1 + a / b) by (field; lra). lra. }
    nra.
  - intros Hs0. assert (0 < a) by (now apply sqrt_lt_R0).
    split; [apply Rdiv_lt_0_compat; lra|lra].
Qed.

Lemma squash_fraction_bounds (s : R) :
  0 <= s -> 0 <= s / (1 + s) <= s /\ s / (1 + s) < 1 /\ (0 < s -> 0 < s / (1 + s)).
Proof.
  intros Hs.
  assert (H1 : s / (1 + s) < 1) by (apply Rdiv_lt_bound; lra).
  assert (H0 : 0 <= s / (1 + s))
    by (apply Rmult_le_pos; [lra|left; apply Rinv_0_lt_compat; lra]).
  assert (H2 : s / (1 + s) <= s).
  { assert (Hp : s / (1 + s) * (1 + s) = s) by (field; lra).
    set (p := s / (1 + s)) in *. nra. }
  repeat split; try lra. intros Hs0. apply Rdiv_lt_0_compat; lra.
Qed.

(** *** squash on float32 values *)

(** The literals are the [float32] values nearest to 1e-7 and to 1e-17. *)
Lemma f32_literals :
  SFdiv 24 128 (S754_finite false 1 0) (S754_finite false (10 ^ 7) 0) = f32_eps /\
  SFdiv 24 128 (S754_finite false 1 0) (S754_finite false (10 ^ 17) 0) = f32_1e_17 /\
  valid_binary 24 128 f32_eps = true /\
  valid_binary 24 128 f32_1e_17 = true.
Proof. repeat split; vm_compute; reflexivity. Qed.

(** Rounding keeps the sign. *)
Lemma binary_round_aux_sign (s : bool) (m e : Z) (l : location) :
  binary_round_aux 24 128 s m e l = S754_nan \/
  f32_negative (binary_round_aux 24 128 s m e l) = s.
Proof.
  unfold binary_round_aux.
  destruct (shr_fexp 24 128 m e l) as [mrs' e'].
  destruct (shr_fexp 24 128 _ e' loc_Exact) as [mrs'' e''].
  destruct (shr_m mrs'') as [|p|p]; [now right| |now left].
  destruct (Z.leb e'' (128 - 24)); now right.
Qed.

Lemma binary_round_sign (s : bool) (m : positive) (e : Z) :
  binary_round 24 128 s m e = S754_nan \/
  f32_negative (binary_round 24 128 s m e) = s.
Proof.
  unfold binary_round. destruct (shl_align _ _ _) as [mz ez].
  apply binary_round_aux_sign.
Qed.

Lemma f32_mul_sign (x y : float32) :
  f32_mul x y = S754_nan \/
  f32_negative (f32_mul x y) = xorb (f32_negative x) (f32_negative y).
Proof.
  destruct x as [sx|sx| |sx mx ex], y as [sy|sy| |sy my ey]; cbn;
    try (now left); try (now right).
  apply binary_round_aux_sign.
Qed.

Lemma f32_div_sign (x y : float32) :
  f32_div x y = S754_nan \/
  f32_negative (f32_div x y) = xorb (f32_negative x) (f32_negative y).
Proof.
  destruct x as [sx|sx| |sx mx ex], y as [sy|sy| |sy my ey]; cbn -[SFdiv_core_binary];
    try (now left); try (now right).
  destruct (SFdiv_core_binary _ _ _ _ _ _) as [[mz ez] lz].
  apply binary_round_aux_sign.
Qed.

Lemma f32_add_sign (x y : float32) :
  f32_negative x = false -> f32_negative y = false ->
  f32_negative (f32_add x y) = false.
Proof.
  destruct x as [sx|sx| |sx mx ex], y as [sy|sy| |sy my ey]; cbn -[shl_align];
    intros Hx Hy; subst; try reflexivity.
  unfold binary_normalize. cbn [cond_Zopp Z.add].
  destruct (binary_round_sign false
              (fst (shl_align mx ex (Z.min ex ey)) + fst (shl_align my ey (Z.min ex ey)))
              (Z.min ex ey)) as [E | E]; [rewrite E; reflexivity|exact E].
Qed.

Lemma f32_sqrt_sign (x : float32) :
  f32_negative x = false -> f32_negative (f32_sqrt x) = false.
Proof.
  destruct x as [sx|sx| |sx mx ex]; cbn -[SFsqrt_core_binary]; intros Hx; subst;
    try reflexivity.
  destruct (SFsqrt_core_binary _ _ _ _) as [[mz ez] lz].
  destruct (binary_round_aux_sign false mz ez lz) as [E | E]; [rewrite E; reflexivity|exact E].
Qed.

Lemma f32_square_sign (x : float32) : f32_negative (f32_mul x x) = false.
Proof.
  destruct (f32_mul_sign x x) as [E | E]; [now rewrite E|].
  rewrite E. apply xorb_nilpotent.
Qed.

Lemma reduce_sum_f32_sign (v : list float32) :
  Forall (fun x => f32_negative x = false) v ->
  f32_negative (reduce_sum_f32 v) = false.
Proof.
  unfold reduce_sum_f32.
  assert (H : forall a, f32_negative a = false ->
                Forall (fun x => f32_negative x = false) v ->
                f32_negative (fold_left f32_add v a) = false).
  { induction v as [|x v IH]; intros a Ha Hv; [exact Ha|].
    inversion Hv; subst. cbn [fold_left]. apply IH; [now apply f32_add_sign|assumption]. }
  apply H. reflexivity.
Qed.

(** The factor is a quotient of sums of squares: its sign bit is clear (it
    is NaN when the squared norm overflows). *)
Lemma scalar_factor_f32_sign (v : list float32) :
  f32_negative (scalar_factor_f32 v) = false.
Proof.
  unfold scalar_factor_f32. cbv zeta.
  set (s := reduce_sum_f32 _).
  assert (Hs : f32_negative s = false).
  { apply reduce_sum_f32_sign. apply Forall_map, Forall_forall.
    intros x _. apply f32_square_sign. }
  assert (H1 : f32_negative (f32_add f32_one s) = false) by (now apply f32_add_sign).
  assert (H2 : f32_negative (f32_sqrt (f32_add s f32_eps)) = false)
    by (apply f32_sqrt_sign; now apply f32_add_sign).
  assert (H3 : f32_negative (f32_div s (f32_add f32_one s)) = false).
  { destruct (f32_div_sign s (f32_add f32_one s)) as [E | E]; [now rewrite E|].
    now rewrite E, Hs, H1. }
  destruct (f32_div_sign (f32_div s (f32_add f32_one s)) (f32_sqrt (f32_add s f32_eps)))
    as [E | E]; [now rewrite E|].
  now rewrite E, H3, H2.
Qed.

Lemma squash_f32_scale (v : list float32) :
  squash_f32 v = map (f32_mul (scalar_factor_f32 v)) v.
Proof. reflexivity. Qed.

(** From the length [2^12 = 4096] on, [1 + ||v||^2] rounds to [||v||^2]: the
    factor is [1 / ||v||] and the squash of [[2^k; 0]] is [[1; 0]]. *)
Lemma squash_f32_saturates (n : nat) :
  (n < 52)%nat ->
  squash_f32 [f32_of_Z 1 (12 + Z.of_nat n); f32_zero] = [f32_one; f32_zero].
Proof.
  intros Hn.
  do 52 (destruct n as [|n]; [vm_compute; reflexivity|]). lia.
Qed.

(** From the length [2^64] on the squared norm is infinite, and the factor
    [inf / (1 + inf)] is NaN. *)
Lemma squash_f32_overflows (n : nat) :
  (n < 64)%nat ->
  squash_f32 [f32_of_Z 1 (64 + Z.of_nat n); f32_zero] = [S754_nan; S754_nan].
Proof.
  intros Hn.
  do 64 (destruct n as [|n]; [vm_compute; reflexivity|]). lia.
Qed.

Lemma f32_real_one : f32_real f32_one = 1.
Proof.
  change f32_one with (S754_finite false 8388608 (-23)). cbn [f32_real].
  change (2 ^ 23)%Z with 8388608%Z. lra.
Qed.

Lemma f32_real_4096 : f32_real (f32_of_Z 4096 0) = 4096.
Proof.
  change (f32_of_Z 4096 0) with (S754_finite false 8388608 (-11)). cbn [f32_real].
  change (2 ^ 11)%Z with 2048%Z. lra.
Qed.

Lemma norm_f32_one_zero : norm (map f32_real [f32_one; f32_zero]) = 1.
Proof.
  cbn [map]. rewrite f32_real_one.
  unfold norm, sq_norm, sum_list. cbn [map fold_right f32_real f32_zero].
  replace (1 * 1 + (0 * 0 + 0)) with 1 by lra. apply sqrt_1.
Qed.

Lemma norm_f32_zero : norm (map f32_real [f32_zero]) = 0.
Proof.
  unfold norm, sq_norm, sum_list. cbn [map fold_right f32_real f32_zero].
  replace (0 * 0 + 0) with 0 by lra. apply sqrt_0.
Qed.

(** C6, as stated, fails on the [float32] values the program computes
    with: the squash of the nonzero vector [[4096; 0]] is [[1; 0]], of
    length exactly 1 (the sum [1 + 2^24] rounds to [2^24]), so the length of
    the squash is not strictly below 1 for every nonzero vector. *)
Lemma squash_f32_length_not_below_one :
  ~ (forall v : list float32,
       nonzero (map f32_real v) -> 0 < norm (map f32_real (squash_f32 v)) < 1).
Proof.
  intros H. specialize (H [f32_of_Z 4096 0; f32_zero]).
  replace (squash_f32 [f32_of_Z 4096 0; f32_zero]) with [f32_one; f32_zero] in H
    by (vm_compute; reflexivity).
  rewrite norm_f32_one_zero in H.
  assert (Hnz : nonzero (map f32_real [f32_of_Z 4096 0; f32_zero])).
  { exists 4096. split; [left; apply f32_real_4096|lra]. }
  apply H in Hnz. lra.
Qed.

(** C6, amended.  In exact arithmetic the function that [squash] computes
    maps a nonzero vector to a vector of length strictly between 0 and 1;
    the length of [squash(v)] is below any [e > 0] once [||v||] is small
    enough, and above [1 - e] once [||v||] is large enough; and [squash(v)]
    is [v] scaled by a nonnegative factor.  The program computes in
    [float32], where [squash(w)] is [w] multiplied, with rounding, by one
    factor whose sign bit is clear, so that no component changes its sign
    (the factor, and with it the result, is NaN when the squared norm
    overflows); and where both bounds are reached: the squash of
    [[2^k; 0]] is [[1; 0]], of length exactly 1, for [12 <= k <= 63] and is
    NaN for [64 <= k <= 127], and the squash of the nonzero vector
    [[1e-17]] is [[0]]. *)
Theorem squash_length (v : list R) (e : R) (w : list float32) (k k' : Z) :
  (nonzero v -> 0 < norm (squash (n := 0) v) < 1) /\
  (0 < e -> exists delta, 0 < delta /\
     forall w, norm w < delta -> norm (squash (n := 0) w) < e) /\
  (0 < e -> exists M,
     forall w, M < norm w -> 1 - e < norm (squash (n := 0) w) < 1) /\
  (exists c, 0 <= c /\ squash (n := 0) v = map (Rmult c) v) /\
  (exists c, f32_negative c = false /\ squash_f32 w = map (f32_mul c) w /\
     forall x, In x w ->
       f32_mul c x = S754_nan \/ f32_negative (f32_mul c x) = f32_negative x) /\
  ((12 <= k <= 63)%Z ->
     squash_f32 [f32_of_Z 1 k; f32_zero] = [f32_one; f32_zero] /\
     norm (map f32_real (squash_f32 [f32_of_Z 1 k; f32_zero])) = 1) /\
  ((64 <= k' <= 127)%Z ->
     squash_f32 [f32_of_Z 1 k'; f32_zero] = [S754_nan; S754_nan]) /\
  squash_f32 [f32_1e_17] = [f32_zero] /\
  norm (map f32_real (squash_f32 [f32_1e_17])) = 0.
Proof.
  pose proof eps_pos as He.
  split; [|split; [|split; [|split; [|split; [|split; [|split; [|split]]]]]]].
  - intros Hv. apply sq_norm_pos in Hv. rewrite norm_squash.
    destruct (squash_ratio_bounds (sq_norm v)) as (_ & _ & Hq); [lra|].
    destruct (squash_fraction_bounds (sq_norm v)) as (_ & Hp1 & Hp0); [lra|].
    specialize (Hq Hv). specialize (Hp0 Hv). nra.
  - intros He0. exists (sqrt e). split; [now apply sqrt_lt_R0|].
    intros u Hu. unfold norm in Hu. apply sqrt_lt_0_alt in Hu.
    rewrite norm_squash. pose proof (sq_norm_nonneg u) as Hs.
    destruct (squash_ratio_bounds (sq_norm u) Hs) as (Hq & _ & _).
    destruct (squash_fraction_bounds (sq_norm u) Hs) as (Hp & _ & _).
    nra.
  - intros He0. exists (sqrt ((1 + 1e-7) / e)).
    intros u Hu. unfold norm in Hu. apply sqrt_lt_0_alt in Hu.
    assert (HX : 0 < (1 + 1e-7) / e) by (apply Rdiv_lt_0_compat; lra).
    assert (Hs : 0 < sq_norm u) by lra.
    assert (Hes : 1 + 1e-7 < e * sq_norm u).
    { apply (Rmult_lt_compat_l e) in Hu; [|assumption].
      replace (e * ((1 + 1e-7) / e)) with (1 + 1e-7) in Hu by (field; lra). lra. }
    rewrite norm_squash. set (s := sq_norm u) in *.
    destruct (squash_ratio_bounds s) as (Hq & Hgap & Hq1); [lra|].
    destruct (squash_fraction_bounds s) as (Hp & Hp1 & Hp0); [lra|].
    specialize (Hq1 Hs). specialize (Hp0 Hs).
    assert (Hp' : 1 - s / (1 + s) < 1 / s).
    { replace (1 - s / (1 + s)) with (1 / (1 + s)) by (field; lra).
      unfold Rdiv. rewrite !Rmult_1_l. apply Rinv_lt_contravar; nra. }
    assert (Hq' : 1e-7 / (s + 1e-7) < 1e-7 / s).
    { unfold Rdiv. apply Rmult_lt_compat_l; [lra|]. apply Rinv_lt_contravar; nra. }
    assert (Hsum : 1 / s + 1e-7 / s < e).
    { replace (1 / s + 1e-7 / s) with ((1 + 1e-7) / s) by (field; lra).
      apply Rdiv_lt_bound; lra. }
    split; nra.
  - exists (scalar_factor_of (sq_norm v)). split.
    + apply scalar_factor_nonneg, sq_norm_nonneg.
    + apply squash_rank1_scale.
  - exists (scalar_factor_f32 w).
    pose proof (scalar_factor_f32_sign w) as Hc.
    split; [exact Hc|]. split; [apply squash_f32_scale|].
    intros x _. destruct (f32_mul_sign (scalar_factor_f32 w) x) as [E | E];
      [now left|right]. now rewrite E, Hc.
  - intros Hk.
    replace k with (12 + Z.of_nat (Z.to_nat (k - 12)))%Z by lia.
    rewrite squash_f32_saturates by lia.
    split; [reflexivity|apply norm_f32_one_zero].
  - intros Hk.
    replace k' with (64 + Z.of_nat (Z.to_nat (k' - 64)))%Z by lia.
    apply squash_f32_overflows. lia.
  - vm_compute. reflexivity.
  - replace (squash_f32 [f32_1e_17]) with [f32_zero] by (vm_compute; reflexivity).
    apply norm_f32_zero.
Qed.

(** C6 amended, on the vector [[3; 4]], the tolerance 1/2 and the lengths
    [2^12] and [2^70]. *)
Lemma squash_length_witness :
  0 < norm (squash (n := 0) [3; 4]) < 1 /\
  (exists delta, 0 < delta /\
     forall w, norm w < delta -> norm (squash (n := 0) w) < 1 / 2) /\
  (exists M, forall w, M < norm w -> 1 - 1 / 2 < norm (squash (n := 0) w) < 1) /\
  norm (map f32_real (squash_f32 [f32_of_Z 1 12; f32_zero])) = 1 /\
  squash_f32 [f32_of_Z 1 70; f32_zero] = [S754_nan; S754_nan].
Proof.
  destruct (squash_length [3; 4] (1 / 2) [] 12 70) as (H1 & H2 & H3 & _ & _ & H4 & H5 & _).
  split; [apply H1; exists 3; split; [now left|lra]|].
  split; [apply H2; lra|]. split; [apply H3; lra|].
  split; [apply H4; lia|apply H5; lia].
Defined.

(* ===================================================================== *)
(** ** The unrouted convolutional layer (section 4.4) *)
(* ===================================================================== *)

(** The 'CONV' layer without routing, on a feature map of the asserted shape
    whose convolution has the asserted shape: the call returns the
    convolution output squashed along its last axis, that is, over the
    [8 * 32] channels of each position taken as one vector. *)
Lemma primary_caps_call (cfg : config) (Weight : tensor 5) (conv2d : conv2d_layer)
    (self : CapsLayer) (input conv_out : tensor 4) (kernel_size stride : option nat) :
  layer_type self = "CONV"%string ->
  with_routing self = false ->
  has_shape input [batch_size cfg; 20; 20; 256]%nat = true ->
  conv2d input (num_outputs self * vec_len self)%nat kernel_size stride = Ok conv_out ->
  has_shape conv_out [batch_size cfg; 6; 6; 8 * 32]%nat = true ->
  snd (CapsLayer__call__ cfg Weight conv2d self input kernel_size stride) =
  Ok (PyTensor 4 (map_last spec_squash_vec conv_out),
      [tf_contrib_layers_conv2d; call_squash]).
Proof.
  intros Ht Hr Hin Hconv Hout.
  unfold CapsLayer__call__, CapsLayer_if_CONV. rewrite Ht, Hr.
  cbn [String.eqb Ascii.eqb Bool.eqb negb with_routing num_outputs vec_len
       self_kernel_size self_stride].
  rewrite Hin. unfold contrib_layers_conv2d. rewrite Hconv.
  cbn [bind assert_ ret called]. rewrite Hout.
  cbn [bind assert_ ret called]. rewrite has_shape_squash, Hout.
  cbn [bind assert_ ret called app snd]. now rewrite squash_map_last.
Qed.

Lemma Rdiv_gt_bound (x y c : R) : 0 < y -> c * y < x -> c < x / y.
Proof.
  intros Hy H. apply (Rmult_lt_reg_r y); [assumption|].
  unfold Rdiv. rewrite Rmult_assoc, Rinv_l by lra. lra.
Qed.

Lemma map_last_tab4 (f : list R -> list R) (n1 n2 n3 n4 : nat) g :
  map_last (n := 3) f (tab4 n1 n2 n3 n4 g) =
  tab n1 (fun i => tab n2 (fun j => tab n3 (fun k => f (tab n4 (g i j k))))).
Proof.
  unfold tab4, tab3, tab2. cbn [map_last].
  rewrite map_tab. apply tab_ext. intros i _.
  rewrite map_tab. apply tab_ext. intros j _.
  now rewrite map_tab.
Qed.

Lemma at4_nested_tab (n1 n2 n3 : nat) (h : nat -> nat -> nat -> list R) (i j k l : nat) :
  (i < n1)%nat -> (j < n2)%nat -> (k < n3)%nat ->
  at4 (tab n1 (fun i => tab n2 (fun j => tab n3 (h i j)))) i j k l = nth l (h i j k) 0.
Proof.
  intros Hi Hj Hk. unfold at4. now rewrite !nth_tab by assumption.
Qed.

Lemma at4_map_last_tab4 (f : list R -> list R) (n1 n2 n3 n4 : nat) g (i j k l : nat) :
  (i < n1)%nat -> (j < n2)%nat -> (k < n3)%nat ->
  at4 (map_last (n := 3) f (tab4 n1 n2 n3 n4 g)) i j k l = nth l (f (tab n4 (g i j k))) 0.
Proof.
  intros Hi Hj Hk. rewrite map_last_tab4.
  now rewrite (at4_nested_tab n1 n2 n3 (fun i j k => f (tab n4 (g i j k)))) by assumption.
Qed.

Lemma chunks_repeat {A : Type} (x : A) (k size : nat) :
  chunks k size (repeat x (k * size)) = repeat (repeat x size) k.
Proof.
  induction k as [|k IH]; [reflexivity|].
  cbn [chunks repeat Nat.mul]. rewrite repeat_app.
  rewrite firstn_app, skipn_app, repeat_length, Nat.sub_diag.
  rewrite firstn_all2, skipn_all2 by (rewrite repeat_length; lia).
  cbn [firstn skipn app]. rewrite app_nil_r. now rewrite IH.
Qed.

Lemma sq_norm_ones (n : nat) : sq_norm (tab n (fun _ => 1)) = INR n.
Proof. rewrite sq_norm_tab, Rsum_const. lra. Qed.

(** The squash of the all-ones vector of length [n]. *)
Lemma spec_squash_vec_ones (n : nat) :
  spec_squash_vec (tab n (fun _ => 1)) =
  tab n (fun _ => INR n / (1 + INR n) * (1 / sqrt (INR n + 1e-7))).
Proof.
  rewrite spec_squash_vec_tab. cbv zeta. apply tab_ext. intros d _.
  rewrite Rsum_const. now rewrite !Rmult_1_r.
Qed.

(** C2 fails on the code.  With a convolution output of all ones, the layer
    returns at every position the 256 channels squashed as one vector: each
    entry is [256/257 / sqrt(256 + 1e-7)], below 1/16.  Squashing each
    capsule of 8 channels on its own, as section 4.4 describes, gives
    [8/9 / sqrt(8 + 1e-7)], above 1/4. *)
Theorem primary_caps_squashes_all_channels :
  exists out : tensor 4,
    snd (CapsLayer__call__ cfg0 Weight0 conv2d_ones primary_caps0 feature_map0
           (Some 9%nat) (Some 2%nat)) =
      Ok (PyTensor 4 out, [tf_contrib_layers_conv2d; call_squash]) /\
    out = map_last spec_squash_vec conv_ones /\
    at4 out 0 0 0 0 = 256 / (1 + 256) * (1 / sqrt (256 + 1e-7)) /\
    at4 (spec_primary_caps 8 conv_ones) 0 0 0 0 = 8 / (1 + 8) * (1 / sqrt (8 + 1e-7)) /\
    at4 out 0 0 0 0 < 1 / 16 /\
    1 / 4 < at4 (spec_primary_caps 8 conv_ones) 0 0 0 0.
Proof.
  pose proof eps_pos as He.
  assert (E1 : at4 (map_last spec_squash_vec conv_ones) 0 0 0 0 =
               256 / (1 + 256) * (1 / sqrt (256 + 1e-7))).
  { unfold conv_ones. rewrite at4_map_last_tab4 by lia.
    rewrite spec_squash_vec_ones, nth_tab by lia.
    rewrite INR_IZR_INZ. reflexivity. }
  assert (E2 : at4 (spec_primary_caps 8 conv_ones) 0 0 0 0 =
               8 / (1 + 8) * (1 / sqrt (8 + 1e-7))).
  { unfold spec_primary_caps, conv_ones. rewrite at4_map_last_tab4 by lia.
    unfold spec_squash_per_capsule. rewrite tab_length.
    change ((8 * 32) / 8)%nat with 32%nat.
    rewrite <- repeat_tab. change (8 * 32)%nat with (32 * 8)%nat.
    rewrite chunks_repeat.
    change (repeat (repeat 1 8) 32) with (repeat 1 8 :: repeat (repeat 1 8) 31).
    cbn [map concat].
    rewrite (repeat_tab 8 1), spec_squash_vec_ones. rewrite tab_S. cbn [app nth].
    rewrite INR_IZR_INZ. reflexivity. }
  exists (map_last spec_squash_vec conv_ones).
  split.
  { apply primary_caps_call;
      [reflexivity | reflexivity | apply (has_shape_np_zeros [1; 20; 20; 256]%nat)
      | reflexivity | apply has_shape_tab4]. }
  split; [reflexivity|]. split; [exact E1|]. split; [exact E2|].
  rewrite E1, E2.
  assert (H16 : 16 < sqrt (256 + 1e-7)).
  { assert (E : sqrt (16 * 16) = 16) by (apply sqrt_square; lra).
    rewrite <- E at 1. apply sqrt_lt_1; lra. }
  assert (H3 : 0 < sqrt (8 + 1e-7) < 3).
  { split; [apply sqrt_lt_R0; lra|].
    assert (E : sqrt (3 * 3) = 3) by (apply sqrt_square; lra).
    rewrite <- E. apply sqrt_lt_1; lra. }
  split.
  - assert (1 / sqrt (256 + 1e-7) < 1 / 16) by (apply Rdiv_lt_bound; lra).
    lra.
  - assert (1 / 3 < 1 / sqrt (8 + 1e-7)) by (apply Rdiv_gt_bound; lra).
    lra.
Qed.

(* ===================================================================== *)
(** ** The routed fully-connected layer (section 4.4) *)
(* ===================================================================== *)

(** The 'FC' layer with routing, on an input with the element count of
    [batch_size, 1152, 1, 8, 1]: the input is reshaped to that shape and
    stored in [self.input], [routing] runs on it, its capsules are returned
    and its logits stored in [self.b_IJ]. *)
Lemma digit_caps_call (cfg : config) (Weight : tensor 5) (conv2d : conv2d_layer)
    (self : CapsLayer) (input : tensor 4) (kernel_size stride : option nat) :
  layer_type self = "FC"%string ->
  with_routing self = true ->
  has_shape Weight weight_shape = true ->
  length (flatten input) = prod_shape (input_shape cfg) ->
  (1 <= iter_routing cfg)%nat ->
  let inp := unflatten 5 (input_shape cfg) (flatten input) in
  exists (v b : tensor 3) (t : list call),
    has_shape inp (input_shape cfg) = true /\
    routing cfg Weight inp = Ok ((v, b), t) /\
    CapsLayer__call__ cfg Weight conv2d self input kernel_size stride =
      ({| num_outputs := num_outputs self; vec_len := vec_len self;
          with_routing := true; layer_type := "FC"%string;
          self_kernel_size := self_kernel_size self; self_stride := self_stride self;
          self_input := Some inp; self_b_IJ := Some b |},
       Ok (PyTensor 3 v, tf_reshape :: tf_variable_scope "routing" :: call_routing :: t)).
Proof.
  intros Ht Hr HW Hlen HR inp.
  assert (Hinp : has_shape inp (input_shape cfg) = true)
    by apply (unflatten_has_shape (input_shape cfg) _ Hlen).
  destruct (iter_routing cfg) as [|k] eqn:Ek; [lia|].
  pose proof (routing_tab cfg Weight inp k HW Hinp Ek) as Hrun. cbv zeta in Hrun.
  eexists _, _, _. split; [exact Hinp|]. split; [exact Hrun|].
  unfold CapsLayer__call__, CapsLayer_if_CONV. rewrite Ht.
  cbn [String.eqb Ascii.eqb Bool.eqb ret]. rewrite Ht, Hr.
  cbn [String.eqb Ascii.eqb Bool.eqb].
  unfold CapsLayer_FC_routing, reshape.
  change [batch_size cfg; (6 * 6 * 32)%nat; 1%nat; 8%nat; 1%nat] with (input_shape cfg).
  rewrite Hlen, !Nat.eqb_refl. cbn [length Nat.eqb andb called].
  fold inp. cbn [bind called]. rewrite Hrun.
  cbn [fst bind assert_ ret].
  change [batch_size cfg; 10%nat; 16%nat] with [batch_size cfg; num_caps_l_plus_1; len_v_j].
  rewrite has_shape_tab3.
  cbn [bind assert_ ret app num_outputs vec_len with_routing layer_type
       self_kernel_size self_stride self_input self_b_IJ].
  rewrite Ht, Hr, !app_nil_r. reflexivity.
Qed.

(* ===================================================================== *)
(** ** Outcomes and further properties of [routing] *)
(* ===================================================================== *)

Lemma length_concat_repeat {A : Type} (x : list A) (k : nat) :
  length (concat (repeat x k)) = (k * length x)%nat.
Proof.
  induction k as [|k IH]; [reflexivity|].
  cbn [repeat concat Nat.mul]. now rewrite length_app, IH.
Qed.

Lemma forallb_concat_repeat {A : Type} (p : A -> bool) (x : list A) (k : nat) :
  (0 < k)%nat -> forallb p (concat (repeat x k)) = forallb p x.
Proof.
  intros Hk. destruct k as [|k]; [lia|]. clear Hk.
  induction k as [|k IH].
  - cbn [repeat concat]. now rewrite app_nil_r.
  - change (repeat x (S (S k))) with (x :: repeat x (S k)).
    cbn [concat]. rewrite forallb_app, IH. now destruct (forallb p x).
Qed.

Lemma forallb_pointwise {A : Type} (p q : A -> bool) (l : list A) :
  (forall x, p x = q x) -> forallb p l = forallb q l.
Proof.
  intros H. induction l as [|x l IH]; [reflexivity|].
  cbn [forallb]. now rewrite H, IH.
Qed.

Lemma eqb_mul_one (k m : nat) : (0 < k)%nat -> Nat.eqb (k * m) k = Nat.eqb m 1.
Proof.
  intros Hk. destruct (Nat.eqb_spec m 1) as [-> | Hm].
  - rewrite Nat.mul_1_r. apply Nat.eqb_refl.
  - apply Nat.eqb_neq. nia.
Qed.

Lemma shape_check_concat_repeat {A : Type} (p : A -> bool) (y : list A) (k : nat) :
  (0 < k)%nat ->
  Nat.eqb (length (concat (repeat y k))) k && forallb p (concat (repeat y k)) =
  Nat.eqb (length y) 1 && forallb p y.
Proof.
  intros Hk.
  now rewrite length_concat_repeat, eqb_mul_one, forallb_concat_repeat by assumption.
Qed.

Lemma has_shape_map (n : nat) (g : tensor n -> tensor n) (t : tensor (S n))
    (d : nat) (sh : list nat) :
  has_shape (n := S n) (map g t) (d :: sh) =
  Nat.eqb (length t) d && forallb (fun x => has_shape (g x) sh) t.
Proof.
  cbn [has_shape]. rewrite length_map. f_equal.
  apply forallb_map_ext. reflexivity.
Qed.

(** Tiling the third axis [k] times turns a length 1 into a length [k] and
    nothing else into it: the assertion on the tiled input is an assertion on
    the input. *)
Lemma has_shape_tile_input (input : tensor 5) (n1 n2 n4 n5 k : nat) :
  (0 < k)%nat ->
  has_shape (tile input [1; 1; k; 1; 1]%nat) [n1; n2; k; n4; n5] =
  has_shape input [n1; n2; 1%nat; n4; n5].
Proof.
  intros Hk. rewrite tile_one_cons, (has_shape_map 4).
  change (has_shape input [n1; n2; 1%nat; n4; n5])
    with (Nat.eqb (length input) n1 &&
          forallb (fun x : tensor 4 => has_shape x [n2; 1%nat; n4; n5]) input).
  f_equal. apply forallb_pointwise. intros x.
  rewrite tile_one_cons, (has_shape_map 3).
  change (has_shape x [n2; 1%nat; n4; n5])
    with (Nat.eqb (length x) n2 &&
          forallb (fun y : tensor 3 => has_shape y [1%nat; n4; n5]) x).
  f_equal. apply forallb_pointwise. intros y.
  rewrite tile_cons.
  rewrite (map_ext (fun z : tensor 2 => tile z [1; 1]%nat) (fun z => z))
    by (intros z; apply (tile_ones 2); repeat constructor).
  rewrite map_id.
  exact (shape_check_concat_repeat (fun z : tensor 2 => has_shape z [n4; n5]) y k Hk).
Qed.

(** X1.  The outcomes of [routing] when the variable [Weight] has its
    declared shape: an input whose shape is not [batch_size, 1152, 1, 8, 1]
    fails the first assertion; an input of that shape with
    [cfg.iter_routing = 0] passes the statements before the loop and then
    fails at [return(v_J, b_IJ)], [v_J] being unbound; an input of that shape
    with at least one iteration returns. *)
Theorem routing_outcomes (cfg : config) (Weight input : tensor 5) :
  has_shape Weight weight_shape = true ->
  (has_shape input (input_shape cfg) = false ->
     routing cfg Weight input = Raise AssertionError) /\
  (has_shape input (input_shape cfg) = true -> iter_routing cfg = O ->
     (exists st, routing_prologue cfg Weight input = Ok (st, prologue_calls)) /\
     routing cfg Weight input = Raise UnboundLocalError) /\
  (has_shape input (input_shape cfg) = true -> (1 <= iter_routing cfg)%nat ->
     exists v b, routing cfg Weight input =
                 Ok ((v, b), prologue_calls ++ loop_calls 0 (iter_routing cfg))).
Proof.
  intros HW. split; [|split].
  - intros HI. unfold routing, routing_after, routing_prologue, get_variable.
    unfold weight_shape in HW. rewrite HW. cbn [bind called ret].
    rewrite has_shape_tile_input by apply num_caps_l_plus_1_pos.
    unfold input_shape in HI. rewrite HI. reflexivity.
  - intros HI HR. split.
    + eexists. apply (routing_prologue_tab cfg Weight input HW HI).
    + apply routing_zero_iterations; assumption.
  - intros HI HR. destruct (iter_routing cfg) as [|k] eqn:Ek; [lia|].
    eexists _, _. apply (routing_tab cfg Weight input k HW HI Ek).
Qed.

(** X1 on the empty batch under batch size 1, on the all-zero input without
    iteration, and on the all-zero input with three iterations. *)
Lemma routing_outcomes_witness :
  routing cfg0 Weight0 [] = Raise AssertionError /\
  routing cfg_no_iteration Weight0 input0 = Raise UnboundLocalError /\
  exists v b, routing cfg0 Weight0 input0 = Ok ((v, b), prologue_calls ++ loop_calls 0 3).
Proof.
  split; [|split].
  - apply (proj1 (routing_outcomes cfg0 Weight0 [] Weight0_shape)). reflexivity.
  - apply (proj1 (proj2 (routing_outcomes cfg_no_iteration Weight0 input0 Weight0_shape)));
      [exact input0_shape|reflexivity].
  - apply (proj2 (proj2 (routing_outcomes cfg0 Weight0 input0 Weight0_shape)));
      [exact input0_shape|cbn; lia].
Defined.



(** The rows of the capsules the specification computes are squashed
    vectors. *)
Lemma spec_v_row_squash (N_in N_out D_out : nat) votes b (j : nat) :
  tab D_out (spec_v N_in N_out D_out votes b j) =
  squash (n := 0) (tab D_out (spec_s N_in N_out votes b j)).
Proof.
  rewrite squash_rank1_spec, spec_squash_vec_tab. reflexivity.
Qed.

Lemma nth_tab3_row (n1 n2 n3 : nat) (f : nat -> nat -> nat -> R) (i j : nat) :
  (i < n1)%nat -> (j < n2)%nat ->
  nth j (nth i (tab3 n1 n2 n3 f) []) [] = tab n3 (f i j).
Proof.
  intros Hi Hj. unfold tab3, tab2. now rewrite !nth_tab by assumption.
Qed.

(** *** The specification depends on the votes and logits entry by entry *)

Section SpecExt.

Variables N_in N_out D_out : nat.
Variables votes votes' : nat -> nat -> nat -> R.
Hypothesis votes_eq : forall i j d, votes i j d = votes' i j d.

Lemma spec_c_ext b b' i j :
  (forall i j, b i j = b' i j) -> spec_c N_out b i j = spec_c N_out b' i j.
Proof.
  intros Hb. unfold spec_c. rewrite Hb. f_equal.
  apply Rsum_ext. intros j' _. now rewrite Hb.
Qed.

Lemma spec_s_ext b b' j d :
  (forall i j, b i j = b' i j) ->
  spec_s N_in N_out votes b j d = spec_s N_in N_out votes' b' j d.
Proof.
  intros Hb. unfold spec_s. apply Rsum_ext. intros i _.
  now rewrite (spec_c_ext b b' i j Hb), votes_eq.
Qed.

Lemma spec_v_ext b b' j d :
  (forall i j, b i j = b' i j) ->
  spec_v N_in N_out D_out votes b j d = spec_v N_in N_out D_out votes' b' j d.
Proof.
  intros Hb. unfold spec_v. cbv zeta.
  rewrite (Rsum_ext D_out _ (fun d' => spec_s N_in N_out votes' b' j d' *
                                        spec_s N_in N_out votes' b' j d'))
    by (intros d' _; now rewrite (spec_s_ext b b' j d' Hb)).
  now rewrite (spec_s_ext b b' j d Hb).
Qed.

Lemma spec_agreement_ext b b' i j :
  (forall i j, b i j = b' i j) ->
  spec_agreement N_in N_out D_out votes b i j =
  spec_agreement N_in N_out D_out votes' b' i j.
Proof.
  intros Hb. unfold spec_agreement. apply Rsum_ext. intros d _.
  now rewrite votes_eq, (spec_v_ext b b' j d Hb).
Qed.

Lemma spec_logits_ext r i j :
  spec_logits N_in N_out D_out votes r i j = spec_logits N_in N_out D_out votes' r i j.
Proof.
  revert i j. induction r as [|r IH]; intros i j; [reflexivity|].
  cbn [spec_logits]. unfold spec_update.
  now rewrite IH, (spec_agreement_ext _ _ i j IH).
Qed.

End SpecExt.

Lemma spec_votes_batch_element (W U1 U2 : tensor 5) (n1 n2 : nat) :
  nth n1 U1 [] = nth n2 U2 [] ->
  forall i j d, spec_votes W U1 n1 i j d = spec_votes W U2 n2 i j d.
Proof.
  intros H i j d. unfold spec_votes. apply Rsum_ext. intros k _.
  f_equal. unfold at5. now rewrite H.
Qed.

(** X4.  The results of [routing] for one batch element depend on that
    element of the input only (and on the weight and the iteration count):
    two runs whose inputs hold the same capsules at the batch positions [n1]
    and [n2] return the same output capsules and the same logits at these
    positions, whatever the other batch elements and the batch sizes. *)
Theorem routing_batch_independent (cfg1 cfg2 : config) (Weight U1 U2 : tensor 5) (n1 n2 : nat) :
  has_shape Weight weight_shape = true ->
  has_shape U1 (input_shape cfg1) = true ->
  has_shape U2 (input_shape cfg2) = true ->
  iter_routing cfg1 = iter_routing cfg2 ->
  (1 <= iter_routing cfg1)%nat ->
  (n1 < batch_size cfg1)%nat -> (n2 < batch_size cfg2)%nat ->
  nth n1 U1 [] = nth n2 U2 [] ->
  exists (v1 b1 v2 b2 : tensor 3) (t : list call),
    routing cfg1 Weight U1 = Ok ((v1, b1), t) /\
    routing cfg2 Weight U2 = Ok ((v2, b2), t) /\
    nth n1 v1 [] = nth n2 v2 [] /\
    nth n1 b1 [] = nth n2 b2 [].
Proof.
  intros HW H1 H2 HR HR1 Hn1 Hn2 HU.
  destruct (iter_routing cfg1) as [|k] eqn:Ek; [lia|].
  symmetry in HR.
  pose proof (spec_votes_batch_element Weight U1 U2 n1 n2 HU) as Hv.
  eexists _, _, _, _, _.
  split; [apply (routing_tab cfg1 Weight U1 k HW H1 Ek)|].
  split; [apply (routing_tab cfg2 Weight U2 k HW H2 HR)|].
  cbv zeta. unfold tab3. rewrite !nth_tab by assumption. split.
  - unfold tab2. apply tab_ext. intros j _. apply tab_ext. intros d _.
    apply spec_v_ext; [exact Hv|]. intros i j'. unfold batch_logits.
    now apply spec_logits_ext.
  - unfold tab2. apply tab_ext. intros i _. apply tab_ext. intros j _.
    unfold batch_logits. now apply spec_logits_ext.
Qed.

(** X4 on the only element of [input0] and the second element of
    [input_two]. *)
Lemma routing_batch_independent_witness :
  exists (v1 b1 v2 b2 : tensor 3) (t : list call),
    routing cfg0 Weight0 input0 = Ok ((v1, b1), t) /\
    routing cfg_two Weight0 input_two = Ok ((v2, b2), t) /\
    nth 0 v1 [] = nth 1 v2 [] /\
    nth 0 b1 [] = nth 1 b2 [].
Proof.
  apply (routing_batch_independent cfg0 cfg_two Weight0 input0 input_two 0 1
           Weight0_shape input0_shape (has_shape_np_zeros (input_shape cfg_two))
           eq_refl).
  - cbn. lia.
  - cbn. lia.
  - cbn. lia.
  - reflexivity.
Defined.


Lemma Rsum_mult_l (n : nat) (c : R) (f : nat -> R) :
  Rsum n (fun i => c * f i) = c * Rsum n f.
Proof.
  induction n as [|n IH]; [cbn; lra|].
  cbn [Rsum]. rewrite IH. lra.
Qed.

(** X5.  With one routing iteration the coupling is uniform: every output
    capsule is the squashed sum of its votes divided by 10, and the returned
    logit of a pair [(i, j)] is the dot product of the vote of [i] for [j]
    with the output capsule [j]. *)
Theorem routing_single_iteration (cfg : config) (Weight input : tensor 5) :
  has_shape Weight weight_shape = true ->
  has_shape input (input_shape cfg) = true ->
  iter_routing cfg = 1%nat ->
  let u := spec_votes Weight input in
  exists (v b : tensor 3) (t : list call),
    routing cfg Weight input = Ok ((v, b), t) /\
    (forall n j, (n < batch_size cfg)%nat -> (j < num_caps_l_plus_1)%nat ->
       nth j (nth n v []) [] =
       squash (n := 0)
         (tab len_v_j (fun d => Rsum num_caps_l (fun i => u n i j d) / 10))) /\
    (forall n i j, (n < batch_size cfg)%nat -> (i < num_caps_l)%nat ->
       (j < num_caps_l_plus_1)%nat ->
       at3 b n i j = Rsum len_v_j (fun d => u n i j d * at3 v n j d)).
Proof.
  intros HW HI HR u. eexists _, _, _.
  split; [apply (routing_tab cfg Weight input 0 HW HI HR)|]. cbv zeta. split.
  - intros n j Hn Hj. rewrite nth_tab3_row by assumption.
    rewrite spec_v_row_squash. f_equal. apply tab_ext. intros d _.
    unfold spec_s, batch_logits. cbn [spec_logits].
    rewrite (Rsum_ext _ _ (fun i => / 10 * spec_votes Weight input n i j d)).
    + rewrite Rsum_mult_l. fold u. lra.
    + intros i _. rewrite spec_c_uniform by (apply num_caps_l_plus_1_pos || reflexivity).
      unfold num_caps_l_plus_1. cbn [INR]. lra.
  - intros n i j Hn Hi Hj. rewrite at3_tab3 by assumption.
    unfold batch_logits. cbn [spec_logits]. unfold spec_update, spec_agreement.
    rewrite Rplus_0_l. apply Rsum_ext. intros d Hd.
    now rewrite at3_tab3 by assumption.
Qed.

(** X5 on the all-zero tensors. *)
Lemma routing_single_iteration_witness :
  exists (v b : tensor 3) (t : list call),
    routing cfg_one_iteration Weight0 input0 = Ok ((v, b), t) /\
    (forall n j, (n < batch_size cfg_one_iteration)%nat -> (j < num_caps_l_plus_1)%nat ->
       nth j (nth n v []) [] =
       squash (n := 0)
         (tab len_v_j (fun d => Rsum num_caps_l
                                  (fun i => spec_votes Weight0 input0 n i j d) / 10))) /\
    (forall n i j, (n < batch_size cfg_one_iteration)%nat -> (i < num_caps_l)%nat ->
       (j < num_caps_l_plus_1)%nat ->
       at3 b n i j = Rsum len_v_j (fun d => spec_votes Weight0 input0 n i j d * at3 v n j d)).
Proof.
  apply (routing_single_iteration cfg_one_iteration Weight0 input0 Weight0_shape
           input0_shape eq_refl).
Defined.


(* ===================================================================== *)
(** ** Outcomes of [CapsLayer.__call__] *)
(* ===================================================================== *)

Lemma squash_nil (n : nat) : squash (n := n) [] = [].
Proof. destruct n; [apply squash_rank1|apply squash_rank_S]. Qed.

Lemma nth_map_default {A B : Type} (f : A -> B) (l : list A) (i : nat) (d : A) (d' : B) :
  f d = d' -> nth i (map f l) d' = f (nth i l d).
Proof. intros <-. apply map_nth. Qed.

Lemma nth_squash (m : nat) (t : tensor (S (S m))) (i : nat) :
  nth i (squash t) [] = squash (n := m) (nth i t []).
Proof.
  rewrite squash_rank_S.
  exact (nth_map_default (squash (n := m)) t i [] [] (squash_nil m)).
Qed.

(** [squash] on a tensor of rank 4, position by position (also at the
    positions out of range, where both sides are empty). *)
Lemma squash_rank4_position (t : tensor 4) (n h w : nat) :
  nth w (nth h (nth n (squash t) []) []) [] =
  squash (n := 0) (nth w (nth h (nth n t []) []) []).
Proof.
  transitivity (nth w (squash (n := 1) (nth h (nth n t []) [])) []);
    [|exact (nth_squash 0 _ w)].
  apply (f_equal (fun x : tensor 2 => nth w x [])).
  transitivity (nth h (squash (n := 2) (nth n t [])) []);
    [|exact (nth_squash 1 _ h)].
  apply (f_equal (fun x : tensor 3 => nth h x [])).
  exact (nth_squash 2 t n).
Qed.

(** X6.  The 'CONV' layer without routing, on a feature map of shape
    [batch_size, 20, 20, 256] whose convolution has shape
    [batch_size, 6, 6, 256]: the call stores the kernel size and the stride on
    the instance, asks the convolution for [num_outputs * vec_len] channels
    and returns its output squashed, a tensor of the same shape in which the
    256 channels of every position form one squashed vector. *)
Theorem primary_caps_forward (cfg : config) (Weight : tensor 5) (conv2d : conv2d_layer)
    (self : CapsLayer) (input conv_out : tensor 4) (kernel_size stride : option nat) :
  layer_type self = "CONV"%string ->
  with_routing self = false ->
  has_shape input [batch_size cfg; 20; 20; 256]%nat = true ->
  conv2d input (num_outputs self * vec_len self)%nat kernel_size stride = Ok conv_out ->
  has_shape conv_out [batch_size cfg; 6; 6; 8 * 32]%nat = true ->
  CapsLayer__call__ cfg Weight conv2d self input kernel_size stride =
    (with_kernel self kernel_size stride,
     Ok (PyTensor 4 (squash conv_out), [tf_contrib_layers_conv2d; call_squash])) /\
  has_shape (squash conv_out) [batch_size cfg; 6; 6; 8 * 32]%nat = true /\
  (forall n h w,
     nth w (nth h (nth n (squash conv_out) []) []) [] =
       squash (n := 0) (nth w (nth h (nth n conv_out []) []) [])).
Proof.
  intros Ht Hr Hin Hconv Hout. split; [|split].
  - unfold CapsLayer__call__, CapsLayer_if_CONV. rewrite Ht, Hr.
    cbn [String.eqb Ascii.eqb Bool.eqb negb with_routing num_outputs vec_len
         self_kernel_size self_stride].
    rewrite Hin. unfold contrib_layers_conv2d. rewrite Hconv.
    cbn [bind assert_ ret called]. rewrite Hout.
    cbn [bind assert_ ret called]. rewrite has_shape_squash, Hout.
    cbn [bind assert_ ret called app]. unfold with_kernel. now rewrite Ht, Hr.
  - now rewrite has_shape_squash.
  - intros n h w. apply squash_rank4_position.
Qed.

(** X6 on the all-ones convolution output. *)
Lemma primary_caps_forward_witness :
  CapsLayer__call__ cfg0 Weight0 conv2d_ones primary_caps0 feature_map0
      (Some 9%nat) (Some 2%nat) =
    (with_kernel primary_caps0 (Some 9%nat) (Some 2%nat),
     Ok (PyTensor 4 (squash conv_ones), [tf_contrib_layers_conv2d; call_squash])) /\
  has_shape (squash conv_ones) [batch_size cfg0; 6; 6; 8 * 32]%nat = true /\
  (forall n h w,
     nth w (nth h (nth n (squash conv_ones) []) []) [] =
       squash (n := 0) (nth w (nth h (nth n conv_ones []) []) [])).
Proof.
  apply (primary_caps_forward cfg0 Weight0 conv2d_ones primary_caps0 feature_map0 conv_ones).
  - reflexivity.
  - reflexivity.
  - apply (has_shape_np_zeros [1; 20; 20; 256]%nat).
  - reflexivity.
  - apply has_shape_tab4.
Defined.

(** X7.  The 'CONV' layer without routing fails loudly: a feature map that
    is not of shape [batch_size, 20, 20, 256] raises [AssertionError] whatever
    the convolution; an exception of the convolution is passed on; a
    convolution output that is not of shape [batch_size, 6, 6, 256] raises
    [AssertionError].  In every case the instance has the kernel size and the
    stride of the call, and nothing else changed. *)
Theorem primary_caps_failures (cfg : config) (Weight : tensor 5) (conv2d : conv2d_layer)
    (self : CapsLayer) (input : tensor 4) (kernel_size stride : option nat) :
  layer_type self = "CONV"%string ->
  with_routing self = false ->
  let call := CapsLayer__call__ cfg Weight conv2d self input kernel_size stride in
  let conv := conv2d input (num_outputs self * vec_len self)%nat kernel_size stride in
  fst call = with_kernel self kernel_size stride /\
  (has_shape input [batch_size cfg; 20; 20; 256]%nat = false ->
     snd call = Raise AssertionError) /\
  (has_shape input [batch_size cfg; 20; 20; 256]%nat = true ->
     forall e, conv = Raise e -> snd call = Raise e) /\
  (has_shape input [batch_size cfg; 20; 20; 256]%nat = true ->
     forall conv_out, conv = Ok conv_out ->
     has_shape conv_out [batch_size cfg; 6; 6; 8 * 32]%nat = false ->
     snd call = Raise AssertionError).
Proof.
  intros Ht Hr call conv. subst call conv.
  unfold CapsLayer__call__, CapsLayer_if_CONV. rewrite Ht, Hr.
  cbn [String.eqb Ascii.eqb Bool.eqb negb with_routing num_outputs vec_len
       self_kernel_size self_stride].
  unfold contrib_layers_conv2d.
  split; [|split; [|split]].
  - unfold with_kernel. rewrite Ht, Hr.
    match goal with
    | |- fst (match ?c with _ => _ end) = _ => destruct c as [[[v|] t]|e]
    end; reflexivity.
  - intros Hin. rewrite Hin. reflexivity.
  - intros Hin e He. rewrite Hin, He. reflexivity.
  - intros Hin conv_out Hc Hout. rewrite Hin, Hc.
    cbn [bind assert_ ret called]. rewrite Hout. reflexivity.
Qed.

(** X7 on an empty feature map, on a convolution that raises and on a
    convolution that returns an empty tensor. *)
Lemma primary_caps_failures_witness :
  snd (CapsLayer__call__ cfg0 Weight0 conv2d_ones primary_caps0 []
         (Some 9%nat) (Some 2%nat)) = Raise AssertionError /\
  snd (CapsLayer__call__ cfg0 Weight0 conv2d_raises primary_caps0 feature_map0
         (Some 9%nat) (Some 2%nat)) = Raise ValueError /\
  snd (CapsLayer__call__ cfg0 Weight0 conv2d_empty primary_caps0 feature_map0
         (Some 9%nat) (Some 2%nat)) = Raise AssertionError.
Proof.
  assert (Hf : has_shape feature_map0 [batch_size cfg0; 20; 20; 256]%nat = true)
    by apply (has_shape_np_zeros [1; 20; 20; 256]%nat).
  split; [|split].
  - apply (proj1 (proj2 (primary_caps_failures cfg0 Weight0 conv2d_ones primary_caps0 []
                           (Some 9%nat) (Some 2%nat) eq_refl eq_refl))).
    reflexivity.
  - apply (proj1 (proj2 (proj2 (primary_caps_failures cfg0 Weight0 conv2d_raises
                                  primary_caps0 feature_map0
                                  (Some 9%nat) (Some 2%nat) eq_refl eq_refl))) Hf).
    reflexivity.
  - apply (proj2 (proj2 (proj2 (primary_caps_failures cfg0 Weight0 conv2d_empty
                                  primary_caps0 feature_map0
                                  (Some 9%nat) (Some 2%nat) eq_refl eq_refl))) Hf []).
    + reflexivity.
    + reflexivity.
Defined.


Lemma concat_chunks {A : Type} (k size : nat) (l : list A) :
  length l = (k * size)%nat -> concat (chunks k size l) = l.
Proof.
  revert l. induction k as [|k IH]; intros l Hl.
  - destruct l; [reflexivity|discriminate].
  - cbn [chunks concat]. rewrite IH by (rewrite length_skipn; lia).
    apply firstn_skipn.
Qed.

(** Unflattening a list of the right length and flattening the result gives
    the list back: [reshape] keeps the entries in their row-major order. *)
Lemma flatten_unflatten (sh : list nat) (l : list R) :
  length l = prod_shape sh -> flatten (unflatten (length sh) sh l) = l.
Proof.
  revert l. induction sh as [|d sh IH]; intros l Hl.
  - destruct l as [|x [|y l]]; try discriminate. reflexivity.
  - cbn [length unflatten flatten]. rewrite flat_map_concat_map, map_map.
    rewrite (map_ext_in _ (fun c => c)).
    + rewrite map_id. now apply concat_chunks.
    + intros c Hc. apply IH. apply (chunks_In_length d _ l); assumption.
Qed.

Lemma routing_tab_inv (cfg : config) (Weight input : tensor 5) (v b : tensor 3)
    (t : list call) :
  has_shape Weight weight_shape = true ->
  has_shape input (input_shape cfg) = true ->
  routing cfg Weight input = Ok ((v, b), t) ->
  has_shape v [batch_size cfg; num_caps_l_plus_1; len_v_j] = true /\
  has_shape b [batch_size cfg; num_caps_l; num_caps_l_plus_1] = true /\
  forall n j, (n < batch_size cfg)%nat -> (j < num_caps_l_plus_1)%nat ->
    exists s : list R, nth j (nth n v []) [] = squash (n := 0) s.
Proof.
  intros HW HI Hrun.
  destruct (iter_routing cfg) as [|k] eqn:Ek.
  - rewrite (routing_zero_iterations cfg Weight input HW HI Ek) in Hrun. discriminate.
  - rewrite (routing_tab cfg Weight input k HW HI Ek) in Hrun. cbv zeta in Hrun.
    apply Ok_pair_inj in Hrun. destruct Hrun as [Hvb _].
    apply pair_equal_spec in Hvb. destruct Hvb as [<- <-].
    split; [apply has_shape_tab3|]. split; [apply has_shape_tab3|].
    intros n j Hn Hj. rewrite nth_tab3_row by assumption.
    eexists. apply spec_v_row_squash.
Qed.

(** X8.  The 'FC' layer with routing accepts every rank-4 input with
    [batch_size * 1152 * 8] entries, whatever its shape: it reshapes the input
    to [batch_size, 1152, 1, 8, 1], runs [routing] on it and returns the output
    capsules of [routing], of shape [batch_size, 10, 16], each of them the
    [squash] of a vector; the reshaped input and the final logits are stored
    on the instance as [self.input] and [self.b_IJ].  No assertion can fail. *)
Theorem digit_caps_forward (cfg : config) (Weight : tensor 5) (conv2d : conv2d_layer)
    (self : CapsLayer) (input : tensor 4) (kernel_size stride : option nat) :
  layer_type self = "FC"%string ->
  with_routing self = true ->
  has_shape Weight weight_shape = true ->
  length (flatten input) = (batch_size cfg * (1152 * 8))%nat ->
  (1 <= iter_routing cfg)%nat ->
  exists (inp : tensor 5) (v b : tensor 3) (t : list call),
    reshape 5 input (input_shape cfg) = Ok (inp, [tf_reshape]) /\
    flatten inp = flatten input /\
    routing cfg Weight inp = Ok ((v, b), t) /\
    CapsLayer__call__ cfg Weight conv2d self input kernel_size stride =
      (with_routed self inp b,
       Ok (PyTensor 3 v, tf_reshape :: tf_variable_scope "routing" :: call_routing :: t)) /\
    has_shape v [batch_size cfg; 10; 16]%nat = true /\
    (forall n j, (n < batch_size cfg)%nat -> (j < 10)%nat ->
       exists s : list R, nth j (nth n v []) [] = squash (n := 0) s).
Proof.
  intros Ht Hr HW Hlen HR.
  assert (Hlen' : length (flatten input) = prod_shape (input_shape cfg)).
  { rewrite Hlen. unfold input_shape, prod_shape, num_caps_l, len_u_i.
    cbn [fold_right]. lia. }
  destruct (digit_caps_call cfg Weight conv2d self input kernel_size stride
              Ht Hr HW Hlen' HR) as (v & b & t & Hinp & Hrun & Hcall).
  cbv zeta in Hinp, Hrun, Hcall.
  destruct (routing_tab_inv cfg Weight _ v b t HW Hinp Hrun) as (Hv & _ & Hrows).
  exists (unflatten 5 (input_shape cfg) (flatten input)), v, b, t.
  split.
  { unfold reshape. rewrite Hlen', !Nat.eqb_refl. reflexivity. }
  split; [exact (flatten_unflatten (input_shape cfg) _ Hlen')|].
  split; [exact Hrun|].
  split.
  { rewrite Hcall. unfold with_routed. now rewrite Ht, Hr. }
  split; [exact Hv|].
  exact Hrows.
Qed.

Lemma caps_zero_count : length (flatten caps_zero) = (batch_size cfg0 * (1152 * 8))%nat.
Proof.
  unfold caps_zero.
  rewrite (flatten_length 4 _ [1; 6; 6; 256]%nat)
    by apply (has_shape_np_zeros [1; 6; 6; 256]%nat).
  reflexivity.
Qed.

(** X8 on [CapsLayer(10, 16)] and the all-zero input of shape
    [1, 6, 6, 256]. *)
Lemma digit_caps_forward_witness :
  exists (inp : tensor 5) (v b : tensor 3) (t : list call),
    reshape 5 caps_zero (input_shape cfg0) = Ok (inp, [tf_reshape]) /\
    flatten inp = flatten caps_zero /\
    routing cfg0 Weight0 inp = Ok ((v, b), t) /\
    CapsLayer__call__ cfg0 Weight0 conv2d_ones digit_caps0 caps_zero None None =
      (with_routed digit_caps0 inp b,
       Ok (PyTensor 3 v, tf_reshape :: tf_variable_scope "routing" :: call_routing :: t)) /\
    has_shape v [batch_size cfg0; 10; 16]%nat = true /\
    (forall n j, (n < batch_size cfg0)%nat -> (j < 10)%nat ->
       exists s : list R, nth j (nth n v []) [] = squash (n := 0) s).
Proof.
  apply (digit_caps_forward cfg0 Weight0 conv2d_ones digit_caps0 caps_zero None None
           eq_refl eq_refl Weight0_shape caps_zero_count).
  cbn. lia.
Defined.

Lemma input_shape_count (cfg : config) :
  prod_shape [batch_size cfg; (6 * 6 * 32)%nat; 1%nat; 8%nat; 1%nat] =
  (batch_size cfg * (1152 * 8))%nat.
Proof. unfold prod_shape. cbn [fold_right]. lia. Qed.

(** X9.  The 'FC' layer with routing refuses an input whose number of
    entries is not [batch_size * 1152 * 8]: the reshape raises [ValueError],
    [routing] is not run and the instance is left as it was. *)
Theorem digit_caps_wrong_count (cfg : config) (Weight : tensor 5) (conv2d : conv2d_layer)
    (self : CapsLayer) (input : tensor 4) (kernel_size stride : option nat) :
  layer_type self = "FC"%string ->
  with_routing self = true ->
  length (flatten input) <> (batch_size cfg * (1152 * 8))%nat ->
  CapsLayer__call__ cfg Weight conv2d self input kernel_size stride =
    (self, Raise ValueError).
Proof.
  intros Ht Hr Hlen.
  unfold CapsLayer__call__, CapsLayer_if_CONV. rewrite Ht.
  cbn [String.eqb Ascii.eqb Bool.eqb ret]. rewrite Ht, Hr.
  cbn [String.eqb Ascii.eqb Bool.eqb].
  unfold CapsLayer_FC_routing, reshape. rewrite input_shape_count.
  apply Nat.eqb_neq in Hlen. rewrite Hlen. cbn [length Nat.eqb andb].
  reflexivity.
Qed.

(** X9 on the empty input. *)
Lemma digit_caps_wrong_count_witness :
  CapsLayer__call__ cfg0 Weight0 conv2d_ones digit_caps0 [] None None =
    (digit_caps0, Raise ValueError).
Proof.
  apply (digit_caps_wrong_count cfg0 Weight0 conv2d_ones digit_caps0 [] None None
           eq_refl eq_refl).
  cbn. lia.
Defined.

(** X10.  A layer whose [layer_type] is neither 'CONV' nor 'FC' does
    nothing when called: it returns [None], makes no call and leaves the
    instance as it was, whatever its other attributes and the input. *)
Theorem unknown_layer_type (cfg : config) (Weight : tensor 5) (conv2d : conv2d_layer)
    (self : CapsLayer) (input : tensor 4) (kernel_size stride : option nat) :
  layer_type self <> "CONV"%string ->
  layer_type self <> "FC"%string ->
  CapsLayer__call__ cfg Weight conv2d self input kernel_size stride =
    (self, Ok (PyNone, [])).
Proof.
  intros Hc Hf. apply String.eqb_neq in Hc, Hf.
  unfold CapsLayer__call__, CapsLayer_if_CONV. rewrite Hc. cbn [ret]. now rewrite Hf.
Qed.

(** X10 on [CapsLayer(10, 16, True, 'fc')]. *)
Lemma unknown_layer_type_witness :
  CapsLayer__call__ cfg0 Weight0 conv2d_ones
      (CapsLayer__init__ 10 16 (Some true) (Some "fc"%string)) caps_zero None None =
    (CapsLayer__init__ 10 16 (Some true) (Some "fc"%string), Ok (PyNone, [])).
Proof.
  apply (unknown_layer_type cfg0 Weight0 conv2d_ones
           (CapsLayer__init__ 10 16 (Some true) (Some "fc"%string)) caps_zero None None);
    discriminate.
Defined.


(** X11.  The two layers compose: the capsules the 'CONV' layer returns for
    a feature map of shape [batch_size, 20, 20, 256] have the
    [batch_size * 1152 * 8] entries the 'FC' layer with routing asks for, and
    calling that layer on them returns a tensor of shape
    [batch_size, 10, 16]. *)
Theorem primary_then_digit (cfg : config) (Weight : tensor 5) (conv2d : conv2d_layer)
    (primary digit : CapsLayer) (input conv_out : tensor 4) (kernel_size stride : option nat) :
  layer_type primary = "CONV"%string ->
  with_routing primary = false ->
  layer_type digit = "FC"%string ->
  with_routing digit = true ->
  has_shape Weight weight_shape = true ->
  (1 <= iter_routing cfg)%nat ->
  has_shape input [batch_size cfg; 20; 20; 256]%nat = true ->
  conv2d input (num_outputs primary * vec_len primary)%nat kernel_size stride = Ok conv_out ->
  has_shape conv_out [batch_size cfg; 6; 6; 8 * 32]%nat = true ->
  exists (caps : tensor 4) (v : tensor 3) (t1 t2 : list call),
    snd (CapsLayer__call__ cfg Weight conv2d primary input kernel_size stride) =
      Ok (PyTensor 4 caps, t1) /\
    length (flatten caps) = (batch_size cfg * (1152 * 8))%nat /\
    snd (CapsLayer__call__ cfg Weight conv2d digit caps None None) =
      Ok (PyTensor 3 v, t2) /\
    has_shape v [batch_size cfg; 10; 16]%nat = true.
Proof.
  intros Htp Hrp Htd Hrd HW HR Hin Hconv Hout.
  pose proof (primary_caps_call cfg Weight conv2d primary input conv_out kernel_size stride
                Htp Hrp Hin Hconv Hout) as Hp.
  set (caps := map_last spec_squash_vec conv_out) in *.
  assert (Hcaps : has_shape caps [batch_size cfg; 6; 6; 8 * 32]%nat = true).
  { unfold caps. rewrite has_shape_map_last by apply spec_squash_vec_length. exact Hout. }
  assert (Hcount : length (flatten caps) = prod_shape (input_shape cfg)).
  { rewrite (flatten_length 4 _ _ Hcaps).
    unfold input_shape, prod_shape, num_caps_l, len_u_i. cbn [fold_right]. lia. }
  destruct (digit_caps_call cfg Weight conv2d digit caps None None
              Htd Hrd HW Hcount HR) as (v & b & t & Hinp & Hrun & Hcall).
  cbv zeta in Hinp, Hrun, Hcall.
  destruct (routing_tab_inv cfg Weight _ v b t HW Hinp Hrun) as (Hv & _ & _).
  eexists caps, v, _, _.
  split; [exact Hp|]. split.
  { rewrite Hcount. unfold input_shape, prod_shape, num_caps_l, len_u_i.
    cbn [fold_right]. lia. }
  split; [rewrite Hcall; reflexivity|exact Hv].
Qed.

(** X11 on the all-ones convolution output and the layers
    [CapsLayer(32, 8, False, 'CONV')] and [CapsLayer(10, 16)]. *)
Lemma primary_then_digit_witness :
  exists (caps : tensor 4) (v : tensor 3) (t1 t2 : list call),
    snd (CapsLayer__call__ cfg0 Weight0 conv2d_ones primary_caps0 feature_map0
           (Some 9%nat) (Some 2%nat)) = Ok (PyTensor 4 caps, t1) /\
    length (flatten caps) = (batch_size cfg0 * (1152 * 8))%nat /\
    snd (CapsLayer__call__ cfg0 Weight0 conv2d_ones digit_caps0 caps None None) =
      Ok (PyTensor 3 v, t2) /\
    has_shape v [batch_size cfg0; 10; 16]%nat = true.
Proof.
  apply (primary_then_digit cfg0 Weight0 conv2d_ones primary_caps0 digit_caps0
           feature_map0 conv_ones (Some 9%nat) (Some 2%nat)
           eq_refl eq_refl eq_refl eq_refl Weight0_shape).
  - cbn. lia.
  - apply (has_shape_np_zeros [1; 20; 20; 256]%nat).
  - reflexivity.
  - apply has_shape_tab4.
Defined.


(* ===================================================================== *)
(** ** How the 'FC' layer groups the channels into capsules *)
(* ===================================================================== *)

Lemma nth_chunks {A : Type} (k size : nat) (l : list A) (i : nat) :
  (i < k)%nat -> nth i (chunks k size l) [] = firstn size (skipn (i * size) l).
Proof.
  revert l i. induction k as [|k IH]; intros l i Hi; [lia|].
  cbn [chunks]. destruct i as [|i]; [reflexivity|].
  cbn [nth]. rewrite IH by lia. rewrite skipn_skipn.
  now replace (i * size + size)%nat with (S i * size)%nat by lia.
Qed.

Lemma slice_slice {A : Type} (m s m' s' : nat) (l : list A) :
  (m' + s' <= s)%nat ->
  firstn s' (skipn m' (firstn s (skipn m l))) = firstn s' (skipn (m + m') l).
Proof.
  intros H. rewrite skipn_firstn_comm, firstn_firstn, skipn_skipn.
  replace (Nat.min s' (s - m')) with s' by lia.
  now replace (m' + m)%nat with (m + m')%nat by lia.
Qed.

Lemma hd_slice {A : Type} (m s : nat) (l : list A) (d : A) :
  (0 < s)%nat -> hd d (firstn s (skipn m l)) = nth m l d.
Proof.
  intros Hs. destruct s as [|s]; [lia|]. clear Hs. revert l.
  induction m as [|m IH]; intros l.
  - destruct l; reflexivity.
  - destruct l as [|x l]; [reflexivity|]. cbn [skipn nth]. apply IH.
Qed.

Lemma nth_unflatten (m d : nat) (sh : list nat) (l : list R) (i : nat) (dflt : tensor m) :
  (i < d)%nat ->
  nth i (unflatten (S m) (d :: sh) l) dflt =
  unflatten m sh (firstn (prod_shape sh) (skipn (i * prod_shape sh) l)).
Proof.
  intros Hi.
  transitivity (unflatten m sh (nth i (chunks d (prod_shape sh) l) [])).
  - apply (nth_map_lt (unflatten m sh) (chunks d (prod_shape sh) l) i [] dflt).
    now rewrite chunks_length.
  - f_equal. now apply nth_chunks.
Qed.

(** The entries of a list reshaped to [n1, n2, 1, n4, 1]. *)
Lemma unflatten_entry (n1 n2 n4 : nat) (l : list R) (b i k : nat) :
  (b < n1)%nat -> (i < n2)%nat -> (k < n4)%nat ->
  at5 (unflatten 5 [n1; n2; 1%nat; n4; 1%nat] l) b i 0 k 0 =
  nth (b * (n2 * n4) + i * n4 + k) l 0.
Proof.
  intros Hb Hi Hk. unfold at5.
  rewrite (nth_unflatten 4 n1 [n2; 1%nat; n4; 1%nat] l b [] Hb).
  rewrite (nth_unflatten 3 n2 [1%nat; n4; 1%nat] _ i [] Hi).
  rewrite (nth_unflatten 2 1 [n4; 1%nat] _ 0 [] Nat.lt_0_1).
  rewrite (nth_unflatten 1 n4 [1%nat] _ k [] Hk).
  rewrite (nth_unflatten 0 1 [] _ 0 0 Nat.lt_0_1).
  cbn [unflatten].
  assert (P1 : prod_shape [n2; 1%nat; n4; 1%nat] = (n2 * n4)%nat)
    by (unfold prod_shape; cbn [fold_right]; ring).
  assert (P2 : prod_shape [1%nat; n4; 1%nat] = n4)
    by (unfold prod_shape; cbn [fold_right]; ring).
  assert (P3 : prod_shape [n4; 1%nat] = n4)
    by (unfold prod_shape; cbn [fold_right]; ring).
  assert (P4 : prod_shape [1%nat] = 1%nat) by reflexivity.
  assert (P5 : prod_shape [] = 1%nat) by reflexivity.
  rewrite P1, P2, P3, P4, P5.
  rewrite !slice_slice by nia.
  rewrite hd_slice by lia. f_equal. lia.
Qed.

Lemma nth_flat_map_const {A B : Type} (f : A -> list B) (size : nat) (t : list A)
    (i r : nat) (d : A) (d' : B) :
  (forall x, In x t -> length (f x) = size) ->
  (i < length t)%nat -> (r < size)%nat ->
  nth (i * size + r) (flat_map f t) d' = nth r (f (nth i t d)) d'.
Proof.
  revert i. induction t as [|x t IH]; intros i Hall Hi Hr; [cbn in Hi; lia|].
  assert (Hx : length (f x) = size) by (apply Hall; now left).
  cbn [flat_map]. destruct i as [|i].
  - cbn [nth Nat.mul Nat.add]. apply app_nth1. lia.
  - rewrite app_nth2 by (rewrite Hx; lia).
    replace (S i * size + r - length (f x))%nat with (i * size + r)%nat by (rewrite Hx; lia).
    cbn [nth]. apply IH; [intros y Hy; apply Hall; now right|cbn [length] in Hi; lia|exact Hr].
Qed.

Lemma nth_flatten (m : nat) (t : tensor (S m)) (d : nat) (sh : list nat) (i r : nat)
    (dflt : tensor m) :
  has_shape t (d :: sh) = true ->
  (i < d)%nat -> (r < prod_shape sh)%nat ->
  nth (i * prod_shape sh + r) (flatten t) 0 = nth r (flatten (nth i t dflt)) 0.
Proof.
  intros H Hi Hr. apply has_shape_cons in H. destruct H as [Hl Hall].
  apply (nth_flat_map_const (flatten (n := m)) (prod_shape sh) t i r dflt 0).
  - intros x Hx. now apply flatten_length, Hall.
  - rewrite <- Hl in Hi. exact Hi.
  - exact Hr.
Qed.

Lemma has_shape_nth (m : nat) (t : tensor (S m)) (d : nat) (sh : list nat) (i : nat)
    (dflt : tensor m) :
  has_shape t (d :: sh) = true -> (i < d)%nat -> has_shape (nth i t dflt) sh = true.
Proof.
  intros H Hi. now apply (shape_as_tab m t d sh dflt H).
Qed.

(** The entries of the row-major flattening of a tensor of rank 4. *)
Lemma flatten_entry (t : tensor 4) (n1 n2 n3 n4 : nat) (b h w c : nat) :
  has_shape t [n1; n2; n3; n4] = true ->
  (b < n1)%nat -> (h < n2)%nat -> (w < n3)%nat -> (c < n4)%nat ->
  nth (((b * n2 + h) * n3 + w) * n4 + c) (flatten t) 0 = at4 t b h w c.
Proof.
  intros H Hb Hh Hw Hc. unfold at4.
  pose proof (has_shape_nth 3 t n1 _ b [] H Hb) as H3.
  pose proof (has_shape_nth 2 _ n2 _ h [] H3 Hh) as H2.
  pose proof (has_shape_nth 1 _ n3 _ w [] H2 Hw) as H1.
  assert (P3 : prod_shape [n2; n3; n4] = (n2 * (n3 * n4))%nat)
    by (unfold prod_shape; cbn [fold_right]; ring).
  assert (P2 : prod_shape [n3; n4] = (n3 * n4)%nat)
    by (unfold prod_shape; cbn [fold_right]; ring).
  assert (P1 : prod_shape [n4] = n4) by (unfold prod_shape; cbn [fold_right]; ring).
  assert (P0 : prod_shape [] = 1%nat) by reflexivity.
  replace (((b * n2 + h) * n3 + w) * n4 + c)%nat
    with (b * prod_shape [n2; n3; n4] + (h * prod_shape [n3; n4] +
            (w * prod_shape [n4] + (c * prod_shape [] + 0))))%nat
    by (rewrite P3, P2, P1, P0; ring).
  rewrite (nth_flatten 3 t n1 _ b _ [] H Hb) by (rewrite P3, P2, P1, P0; nia).
  rewrite (nth_flatten 2 _ n2 _ h _ [] H3 Hh) by (rewrite P2, P1, P0; nia).
  rewrite (nth_flatten 1 _ n3 _ w _ [] H2 Hw) by (rewrite P1, P0; nia).
  rewrite (nth_flatten 0 _ n4 _ c _ 0 H1 Hc) by (rewrite P0; lia).
  reflexivity.
Qed.

(** X12.  The 'FC' layer with routing, called on a tensor of shape
    [batch_size, 6, 6, 256] (the shape of the 'CONV' layer's output), runs
    [routing] on lower capsules made of 8 consecutive channels of one
    position: the component [k] of the lower capsule [(h * 6 + w) * 32 + g] of
    a batch element is the channel [8 * g + k] of the position [(h, w)] of
    that element; the tensor is stored as [self.input]. *)
Theorem capsule_grouping (cfg : config) (Weight : tensor 5) (conv2d : conv2d_layer)
    (self : CapsLayer) (input : tensor 4) (kernel_size stride : option nat) :
  layer_type self = "FC"%string ->
  with_routing self = true ->
  has_shape Weight weight_shape = true ->
  (1 <= iter_routing cfg)%nat ->
  has_shape input [batch_size cfg; 6; 6; 8 * 32]%nat = true ->
  exists (inp : tensor 5) (v b : tensor 3) (t : list call),
    self_input (fst (CapsLayer__call__ cfg Weight conv2d self input kernel_size stride)) =
      Some inp /\
    routing cfg Weight inp = Ok ((v, b), t) /\
    has_shape inp [batch_size cfg; 1152; 1; 8; 1]%nat = true /\
    forall n h w g k, (n < batch_size cfg)%nat -> (h < 6)%nat -> (w < 6)%nat ->
      (g < 32)%nat -> (k < 8)%nat ->
      at5 inp n ((h * 6 + w) * 32 + g) 0 k 0 = at4 input n h w (8 * g + k).
Proof.
  intros Ht Hr HW HR Hin.
  assert (Hcount : length (flatten input) = prod_shape (input_shape cfg)).
  { rewrite (flatten_length 4 _ _ Hin).
    unfold input_shape, prod_shape, num_caps_l, len_u_i. cbn [fold_right]. lia. }
  destruct (digit_caps_call cfg Weight conv2d self input kernel_size stride
              Ht Hr HW Hcount HR) as (v & b & t & Hinp & Hrun & Hcall).
  cbv zeta in Hinp, Hrun, Hcall.
  exists (unflatten 5 (input_shape cfg) (flatten input)), v, b, t.
  split; [rewrite Hcall; reflexivity|]. split; [exact Hrun|]. split; [exact Hinp|].
  intros n h w g k Hn Hh Hw Hg Hk. unfold input_shape.
  rewrite unflatten_entry by (unfold num_caps_l, len_u_i; lia).
  rewrite <- (flatten_entry input _ _ _ _ n h w (8 * g + k) Hin) by lia.
  f_equal. unfold num_caps_l, len_u_i. lia.
Qed.

(** X12 on [CapsLayer(10, 16)] and the all-zero input of shape
    [1, 6, 6, 256]. *)
Lemma capsule_grouping_witness :
  exists (inp : tensor 5) (v b : tensor 3) (t : list call),
    self_input (fst (CapsLayer__call__ cfg0 Weight0 conv2d_ones digit_caps0 caps_zero
                       None None)) = Some inp /\
    routing cfg0 Weight0 inp = Ok ((v, b), t) /\
    has_shape inp [batch_size cfg0; 1152; 1; 8; 1]%nat = true /\
    forall n h w g k, (n < batch_size cfg0)%nat -> (h < 6)%nat -> (w < 6)%nat ->
      (g < 32)%nat -> (k < 8)%nat ->
      at5 inp n ((h * 6 + w) * 32 + g) 0 k 0 = at4 caps_zero n h w (8 * g + k).
Proof.
  apply (capsule_grouping cfg0 Weight0 conv2d_ones digit_caps0 caps_zero None None
           eq_refl eq_refl Weight0_shape).
  - cbn. lia.
  - apply (has_shape_np_zeros [1; 6; 6; 256]%nat).
Defined.


(* ===================================================================== *)
(** ** Further properties of [squash] *)
(* ===================================================================== *)

Lemma Rdiv_le_bound (x y c : R) : 0 < y -> x <= c * y -> x / y <= c.
Proof.
  intros Hy H. apply (Rmult_le_reg_r y); [assumption|].
  unfold Rdiv. rewrite Rmult_assoc, Rinv_l by lra. lra.
Qed.

Lemma norm_nonneg (v : list R) : 0 <= norm v.
Proof. apply sqrt_pos. Qed.

Lemma norm_sqr (v : list R) : norm v * norm v = sq_norm v.
Proof. apply sqrt_sqrt, sq_norm_nonneg. Qed.

(** X13.  [squash] at least halves the length of a vector, and its output
    is never longer than the squared length of its input.  Squashing a
    second time keeps the direction of the first vector and halves the
    length again: [squash] is a contraction, not idempotent. *)
Theorem squash_contraction (v : list R) :
  norm (squash (n := 0) v) <= norm v / 2 /\
  norm (squash (n := 0) v) <= sq_norm v /\
  norm (squash (n := 0) (squash (n := 0) v)) <= norm (squash (n := 0) v) / 2 /\
  exists k, 0 <= k /\ squash (n := 0) (squash (n := 0) v) = map (Rmult k) v.
Proof.
  assert (Hhalf : forall w, norm (squash (n := 0) w) <= norm w / 2 /\
                            norm (squash (n := 0) w) <= sq_norm w).
  { intros w. rewrite norm_squash.
    pose proof (sq_norm_nonneg w) as Hs. pose proof (norm_nonneg w) as Ha.
    pose proof (norm_sqr w) as Haa.
    destruct (squash_ratio_bounds (sq_norm w) Hs) as (Hq & _ & _).
    destruct (squash_fraction_bounds (sq_norm w) Hs) as (Hp & _ & _).
    assert (Hpa : sq_norm w / (1 + sq_norm w) <= norm w / 2).
    { apply Rdiv_le_bound; [lra|]. rewrite <- Haa.
      set (a := norm w) in *.
      pose proof (Rle_0_sqr (a - 1)) as Hsq. unfold Rsqr in Hsq.
      assert (0 <= a * ((a - 1) * (a - 1))) by (apply Rmult_le_pos; assumption).
      nra. }
    split; nra. }
  split; [apply Hhalf|]. split; [apply Hhalf|]. split; [apply Hhalf|].
  exists (scalar_factor_of (sq_norm (squash (n := 0) v)) * scalar_factor_of (sq_norm v)).
  split.
  - apply Rmult_le_pos; apply scalar_factor_nonneg, sq_norm_nonneg.
  - rewrite (squash_rank1_scale (squash (n := 0) v)).
    rewrite (squash_rank1_scale v) at 2. rewrite map_map.
    apply map_ext. intros x. ring.
Qed.

(* ===================================================================== *)
(** ** The growth of the routing logits *)
(* ===================================================================== *)



Section LogitGrowth.

Variables N_in N_out D_out : nat.
Variable votes : nat -> nat -> nat -> R.





End LogitGrowth.


